(** * PiePay offer service: ingestion and highest-discount selection

    A shallow embedding of [server.js]: the offer normalizer
    ([createOfferId], [parseOffersFromPayload]), the [POST /offer] handler and
    the [GET /highest-discount] handler, together with the properties of the
    service that follow from the code.

    JavaScript numbers are IEEE 754 binary64 values; they are modelled by
    [spec_float] with precision 53 and maximal exponent 1024, so the
    arithmetic of the discount computation is the one the program performs.
    Strings are modelled by their UTF-16 code units, for texts whose units
    are all below 256 (ISO 8859-1): on those, [String.prototype.toLowerCase]
    acts unit by unit. *)

From Stdlib Require Import ZArith List String Ascii Bool Lia.
From Stdlib Require Import Floats.SpecFloat DecimalString DecimalN.
Import ListNotations.

Set Warnings "-register-all".

Local Open Scope string_scope.
Local Open Scope list_scope.

(** ** Exceptions and fallible evaluation *)

Inductive js_error : Type :=
| ReferenceError (name : string)
| TypeError (what : string)
| StorageError.

Inductive result (A : Type) : Type :=
| Ok (a : A)
| Throw (e : js_error).

Arguments Ok {A} a.
Arguments Throw {A} e.

Definition bind {A B : Type} (r : result A) (k : A -> result B) : result B :=
  match r with
  | Ok a => k a
  | Throw e => Throw e
  end.

Notation "x <- r ;; k" := (bind r (fun x => k))
  (at level 61, r at next level, right associativity).

(** ** Numbers *)

Definition number : Type := spec_float.

Definition prec : Z := 53.
Definition emax : Z := 1024.

Definition num_of_Z (z : Z) : number := binary_normalize prec emax z 0 false.
Definition num_mul (x y : number) : number := SFmul prec emax x y.
Definition num_div (x y : number) : number := SFdiv prec emax x y.

(** [x > y], [x < y] and [x <= y] of the language: false as soon as an
    operand is NaN. *)
Definition num_gt (x y : number) : bool := SFltb y x.
Definition num_lt (x y : number) : bool := SFltb x y.
Definition num_le (x y : number) : bool := SFleb x y.

Definition isNaN (x : number) : bool :=
  match x with
  | S754_nan => true
  | _ => false
  end.

(** ToBoolean on a number: [0], [-0] and [NaN] are falsy. *)
Definition num_truthy (x : number) : bool :=
  match x with
  | S754_zero _ | S754_nan => false
  | _ => true
  end.

(** ** Strings *)

Definition unit_between (lo hi : nat) (c : ascii) : bool :=
  (lo <=? nat_of_ascii c)%nat && (nat_of_ascii c <=? hi)%nat.

(** The class [\s] of the regular expressions, which is also the white space
    that [parseFloat] skips: TAB, LF, VT, FF, CR, SPACE and NO-BREAK SPACE are
    its members below 256. *)
Definition is_whitespace (c : ascii) : bool :=
  unit_between 9 13 c || unit_between 32 32 c || unit_between 160 160 c.

(** [s.replace(/\s+/g, '')]. The matcher scans from the left:
    [replace_whitespace] is the state outside a match, where units are
    copied, [in_match] the state once [\s+] has consumed a unit and goes on
    consuming; every match is replaced by nothing. *)
Fixpoint replace_whitespace (s : string) : string :=
  match s with
  | EmptyString => EmptyString
  | String c rest =>
      if is_whitespace c then in_match rest
      else String c (replace_whitespace rest)
  end
with in_match (s : string) : string :=
  match s with
  | EmptyString => EmptyString
  | String c rest =>
      if is_whitespace c then in_match rest
      else String c (replace_whitespace rest)
  end.

(** A..Z, and the capital letters of the upper half (all of 192..222 but the
    multiplication sign 215), map to the unit 32 above. *)
Definition lower_unit (c : ascii) : ascii :=
  if unit_between 65 90 c
     || (unit_between 192 222 c && negb (unit_between 215 215 c))
  then ascii_of_nat (nat_of_ascii c + 32)
  else c.

Fixpoint toLowerCase (s : string) : string :=
  match s with
  | EmptyString => EmptyString
  | String c rest => String (lower_unit c) (toLowerCase rest)
  end.



(** ** Values of a JSON body *)

Inductive jsval : Type :=
| JUndefined
| JNull
| JBool (b : bool)
| JNum (x : number)
| JStr (s : string)
| JArr (elements : list jsval)
| JObj (properties : list (string * jsval)).

(** ToBoolean. *)
Definition truthy (v : jsval) : bool :=
  match v with
  | JUndefined | JNull => false
  | JBool b => b
  | JNum x => num_truthy x
  | JStr s => negb (String.eqb s "")
  | JArr _ | JObj _ => true
  end.

Fixpoint own_property (name : string) (properties : list (string * jsval))
  : option jsval :=
  match properties with
  | [] => None
  | (k, v) :: rest => if String.eqb k name then Some v else own_property name rest
  end.

(** [v.name] for the property names the program reads ([offers],
    [description], [bankName], ...): none of them is defined on a
    prototype, so the access yields the own property of an object,
    [undefined] on any other value that has properties, and throws on
    [undefined] and [null]. *)
Definition get_prop (v : jsval) (name : string) : result jsval :=
  match v with
  | JUndefined | JNull => Throw (TypeError ("Cannot read properties: " ++ name))
  | JObj properties =>
      match own_property name properties with
      | Some w => Ok w
      | None => Ok JUndefined
      end
  | _ => Ok JUndefined
  end.

(** [a || b] when [b] cannot throw. *)
Definition js_or (a b : jsval) : jsval := if truthy a then a else b.

(** [Array.prototype.map] with a callback that may throw: the elements are
    visited in order and the first exception aborts the whole call. *)
Fixpoint array_map {A : Type} (f : jsval -> result A) (elements : list jsval)
  : result (list A) :=
  match elements with
  | [] => Ok []
  | v :: rest =>
      a <- f v ;;
      tail <- array_map f rest ;;
      Ok (a :: tail)
  end.

(** ** Offer normalizer *)

(** [createOfferId]: [description.replace(/\s+/g, '').toLowerCase()]. Only a
    string has a [replace] method; on [undefined] and [null] the property
    access throws, on any other value the call of a non-function does. *)
Definition createOfferId (description : jsval) : result string :=
  match description with
  | JStr s => Ok (toLowerCase (replace_whitespace s))
  | JUndefined | JNull => Throw (TypeError "Cannot read properties: replace")
  | _ => Throw (TypeError "description.replace is not a function")
  end.


Module Offer.
(** The standardized offer object built by [parseOffersFromPayload]. *)
Record t : Type := make {
  id : string;
  description : jsval;
  bankName : jsval;
  paymentInstrument : jsval;
  discountType : jsval;
  discountValue : jsval;
  maxDiscount : jsval;
  minTxnValue : jsval
}.
End Offer.

(** The callback of [offers.map]: the properties of the object literal are
    evaluated in the order they are written. *)
Definition standardize (rawOffer : jsval) : result Offer.t :=
  d0 <- get_prop rawOffer "description" ;;
  id <- createOfferId d0 ;;
  description <- get_prop rawOffer "description" ;;
  bankName <- get_prop rawOffer "bankName" ;;
  paymentInstrument <- get_prop rawOffer "paymentInstrument" ;;
  discountType <- get_prop rawOffer "discountType" ;;
  discountValue <- get_prop rawOffer "discountValue" ;;
  maxDiscount <- get_prop rawOffer "maxDiscount" ;;
  minTxnValue <- get_prop rawOffer "minTxnValue" ;;
  Ok (Offer.make id description bankName paymentInstrument discountType
        discountValue (js_or maxDiscount JNull) minTxnValue).

(** [parseOffersFromPayload]. The guard
    [!flipkartApiResponse || !Array.isArray(flipkartApiResponse.offers)]
    reads [offers] only on a truthy value, where the access cannot throw;
    the [console.error] of its branch only logs. *)
Definition parseOffersFromPayload (flipkartApiResponse : jsval)
  : result (list Offer.t) :=
  if negb (truthy flipkartApiResponse) then Ok []
  else
    offers <- get_prop flipkartApiResponse "offers" ;;
    match offers with
    | JArr elements => array_map standardize elements
    | _ => Ok []
    end.

(** ** HTTP responses *)

Inductive body : Type :=
| ErrorBody (error : string)
| OfferCounts (noOfOffersIdentified noOfNewOffersCreated : nat)
| HighestDiscount (highestDiscountAmount : number).

Record response : Type := respond {
  status : nat;
  json : body
}.

(** ** [POST /offer] *)

(** A handler either sends its response without talking to the pool, or
    issues one statement and sends the response its continuation computes
    from the outcome of the statement (a rejected promise is a [Throw]). For
    this handler the statement is the bulk [INSERT IGNORE INTO offers] of
    [values], which answers with the number of affected rows. *)
Inductive offer_handling : Type :=
| OfferSend (r : response)
| OfferInsertIgnore (values : list (list jsval)) (k : result nat -> response).

(** The [catch] block of the handler. *)
Definition offer_catch (e : js_error) : response :=
  respond 500 (ErrorBody "An internal server error occurred while saving offers.").

(** Resolution of an identifier: the names in [scope] are bound, with the
    values [env] gives them; reading any other name throws. *)
Definition read_identifier (scope : list string) (env : string -> jsval)
    (name : string) : result jsval :=
  if existsb (String.eqb name) scope then Ok (env name)
  else Throw (ReferenceError name).

(** The names bound where the guard is evaluated: the constant the body was
    destructured into, the parameters of the handler, and the bindings of
    the module. The host adds its globals; it has none named
    [flipkartApiResponse], which in the whole file is only the parameter of
    [parseOffersFromPayload]. *)
Definition offer_scope : list string :=
  ["flipkartOfferApiResponse"; "req"; "res";
   "express"; "mysql"; "app"; "PORT"; "dbPool";
   "createOfferId"; "parseOffersFromPayload"].

(** Functions and host objects are not JSON data; the handler reads none of
    them as a value, and they stand as an empty object here. *)
Definition offer_env (flipkartOfferApiResponse : jsval) (name : string) : jsval :=
  if String.eqb name "flipkartOfferApiResponse" then flipkartOfferApiResponse
  else JObj [].

Definition values_of (o : Offer.t) : list jsval :=
  [JStr (Offer.id o); Offer.description o; Offer.bankName o;
   Offer.paymentInstrument o; Offer.discountType o; Offer.discountValue o;
   Offer.maxDiscount o; Offer.minTxnValue o].

(** The handler from [parseOffersFromPayload(flipkartApiResponse)] on: the
    offers are parsed and, unless there is none, inserted in bulk. *)
Definition store_offers (flipkartApiResponse : jsval) : result offer_handling :=
  identifiedOffers <- parseOffersFromPayload flipkartApiResponse ;;
  if (List.length identifiedOffers =? 0)%nat then
    Ok (OfferSend (respond 200 (OfferCounts 0 0)))
  else
    let values := map values_of identifiedOffers in
    Ok (OfferInsertIgnore values (fun outcome =>
          match outcome with
          | Ok affectedRows =>
              respond 201 (OfferCounts (List.length identifiedOffers) affectedRows)
          | Throw e => offer_catch e
          end)).

(** The [try] block. The body is destructured into the constant
    [flipkartOfferApiResponse]; the guard and the call of the parser then
    read the identifier [flipkartApiResponse]. *)
Definition post_offer_try (req_body : jsval) : result offer_handling :=
  flipkartOfferApiResponse <- get_prop req_body "flipkartOfferApiResponse" ;;
  let env := offer_env flipkartOfferApiResponse in
  guard <- read_identifier offer_scope env "flipkartApiResponse" ;;
  if negb (truthy guard) then
    Ok (OfferSend (respond 400
          (ErrorBody "Missing flipkartOfferApiResponse in request body.")))
  else
    flipkartApiResponse <- read_identifier offer_scope env "flipkartApiResponse" ;;
    store_offers flipkartApiResponse.

Definition post_offer (req_body : jsval) : offer_handling :=
  match post_offer_try req_body with
  | Ok h => h
  | Throw e => OfferSend (offer_catch e)
  end.

(** ** Persistence *)

(** Modelled from the spec: the offers table and the bulk insert-ignore of
    section 4.2, which are not part of the source. The table is keyed by its
    first column, [id]; a row whose key is present is skipped, any other is
    added, and the statement answers with the number of rows added. It is
    all-or-nothing: an unavailable store rejects it and keeps its rows. *)
Record Store : Type := mkStore {
  rows : list (list jsval);
  available : bool
}.

Definition key_of (row : list jsval) : jsval := hd JUndefined row.

Definition key_eqb (a b : jsval) : bool :=
  match a, b with
  | JStr x, JStr y => String.eqb x y
  | _, _ => false
  end.

Definition has_key (k : jsval) (table : list (list jsval)) : bool :=
  existsb (fun row => key_eqb (key_of row) k) table.

Fixpoint insert_ignore (values table : list (list jsval))
  : nat * list (list jsval) :=
  match values with
  | [] => (0%nat, table)
  | row :: rest =>
      if has_key (key_of row) table then insert_ignore rest table
      else
        let '(n, table') := insert_ignore rest (table ++ [row]) in
        (S n, table')
  end.

(** One request served against a store. *)
Definition serve_offer (h : offer_handling) (db : Store) : response * Store :=
  match h with
  | OfferSend r => (r, db)
  | OfferInsertIgnore values k =>
      if available db then
        let '(n, table') := insert_ignore values (rows db) in
        (k (Ok n), mkStore table' (available db))
      else (k (Throw StorageError), db)
  end.

(** The payloads of the scenarios. *)
Definition axis_flat_offer : jsval :=
  JObj [("description", JStr "Flat 100 off on AXIS credit cards");
        ("bankName", JStr "AXIS");
        ("paymentInstrument", JStr "CREDIT");
        ("discountType", JStr "FLAT");
        ("discountValue", JNum (num_of_Z 100));
        ("minTxnValue", JNum (num_of_Z 500))].

Definition scenario_body : jsval :=
  JObj [("flipkartOfferApiResponse", JObj [("offers", JArr [axis_flat_offer])])].

(** ** Reading and printing numbers *)

Definition is_digit (c : ascii) : bool := unit_between 48 57 c.

Definition digit_value (c : ascii) : Z := Z.of_nat (nat_of_ascii c) - 48.

Fixpoint trim_start (s : string) : string :=
  match s with
  | String c rest => if is_whitespace c then trim_start rest else s
  | EmptyString => EmptyString
  end.

(** DecimalDigits: the longest run of digits at the head of [s], read on top
    of [acc]; the number of digits read and the rest of the text. *)
Fixpoint scan_digits (acc : Z) (count : nat) (s : string) : Z * nat * string :=
  match s with
  | String c rest =>
      if is_digit c then scan_digits (10 * acc + digit_value c) (S count) rest
      else (acc, count, s)
  | EmptyString => (acc, count, s)
  end.

Definition scan_sign (s : string) : bool * string :=
  match s with
  | String "+" rest => (false, rest)
  | String "-" rest => (true, rest)
  | _ => (false, s)
  end.

(** ExponentPart: [e] or [E], an optional sign and at least one digit;
    without a digit nothing is consumed. *)
Definition scan_exponent (s : string) : Z * string :=
  match s with
  | String c rest =>
      if Ascii.eqb c "e" || Ascii.eqb c "E" then
        let '(negative, digits) := scan_sign rest in
        let '(v, n, rest') := scan_digits 0 0 digits in
        if (n =? 0)%nat then (0%Z, s)
        else ((if negative then - v else v)%Z, rest')
      else (0%Z, s)
  | EmptyString => (0%Z, s)
  end.

(** A StrDecimalLiteral: [Infinity], or the decimal digits [mantissa] scaled
    by ten to the [exp10]. *)
Inductive literal : Type :=
| LitInfinity (negative : bool)
| LitDecimal (negative : bool) (mantissa : Z) (exp10 : Z).

(** StrUnsignedDecimalLiteral at the head of [s]: [Infinity], digits with
    an optional fraction, or a fraction alone, then an optional exponent;
    the longest such prefix and what follows it. *)
Definition scan_unsigned (negative : bool) (s : string) : option (literal * string) :=
  if String.prefix "Infinity" s then
    Some (LitInfinity negative, String.substring 8 (String.length s - 8) s)
  else
    let '(int_part, int_digits, s1) := scan_digits 0 0 s in
    match s1 with
    | String "." s2 =>
        let '(m, frac_digits, s3) := scan_digits int_part 0 s2 in
        if (int_digits =? 0)%nat && (frac_digits =? 0)%nat then None
        else
          let '(e, s4) := scan_exponent s3 in
          Some (LitDecimal negative m (e - Z.of_nat frac_digits), s4)
    | _ =>
        if (int_digits =? 0)%nat then None
        else
          let '(e, s4) := scan_exponent s1 in
          Some (LitDecimal negative int_part e, s4)
    end.

(** The longest prefix of [s] that is a StrDecimalLiteral, and what follows
    it. *)
Definition scan_literal (s : string) : option (literal * string) :=
  let '(negative, s0) := scan_sign s in
  scan_unsigned negative s0.

(** The Number value of a literal: the binary64 value nearest to it, ties to
    even. *)
Definition literal_value (l : literal) : number :=
  match l with
  | LitInfinity negative => S754_infinity negative
  | LitDecimal negative (Zpos m) e =>
      if (0 <=? e)%Z then
        binary_round prec emax negative (m * Z.to_pos (10 ^ e)) 0
      else
        SFdiv prec emax (S754_finite negative m 0)
          (S754_finite false (Z.to_pos (10 ^ (- e))) 0)
  | LitDecimal negative _ _ => S754_zero negative
  end.

Definition parseFloat (s : string) : number :=
  match scan_literal (trim_start s) with
  | Some (l, _) => literal_value l
  | None => S754_nan
  end.

(** The integer [n] for which [n / 100] is nearest to [m * 2 ^ e], the
    larger one when two are as near. *)
Definition nearest_hundredths (m : positive) (e : Z) : Z :=
  if (0 <=? e)%Z then 100 * Zpos m * 2 ^ e
  else (200 * Zpos m + 2 ^ (- e)) / 2 ^ (1 - e).

Definition below_1e21 (m : positive) (e : Z) : bool :=
  if (0 <=? e)%Z then (Zpos m * 2 ^ e <? 10 ^ 21)%Z
  else (Zpos m <? 10 ^ 21 * 2 ^ (- e))%Z.

(** The decimal digits of [n >= 0], with zeros in front when there are
    fewer than three. *)
Definition padded_digits (n : Z) : string :=
  let digits := NilZero.string_of_uint (N.to_uint (Z.to_N n)) in
  match String.length digits with
  | 1%nat => ("00" ++ digits)%string
  | 2%nat => ("0" ++ digits)%string
  | _ => digits
  end.

(** The padded digits with a point before the last two. *)
Definition fixed2 (n : Z) : string :=
  let padded := padded_digits n in
  let k := (String.length padded - 2)%nat in
  (String.substring 0 k padded ++ "." ++ String.substring k 2 padded)%string.

(** [x.toFixed(2)] in its fixed notation; [None] for a finite [x] of
    magnitude [1e21] or more, where the method returns [String(x)]. *)
Definition toFixed2 (x : number) : option string :=
  match x with
  | S754_nan => Some "NaN"
  | S754_infinity false => Some "Infinity"
  | S754_infinity true => Some "-Infinity"
  | S754_zero _ => Some "0.00"
  | S754_finite negative m e =>
      if below_1e21 m e then
        Some ((if negative then "-" else "") ++ fixed2 (nearest_hundredths m e))%string
      else None
  end.

(** [parseFloat(x.toFixed(2))]; [String(x)] reads back as [x]. *)
Definition parseFloat_toFixed2 (x : number) : number :=
  match toFixed2 x with
  | Some s => parseFloat s
  | None => x
  end.

(** ** [GET /highest-discount] *)

(** A parsed query parameter: a text, or a list or an object of parameters
    when the query string repeats or indexes a name. *)
Inductive qsval : Type :=
| QStr (s : string)
| QArr (elements : list qsval)
| QObj (properties : list (string * qsval)).

(** ToBoolean on [req.query.name]; an absent parameter is [undefined]. *)
Definition q_truthy (v : option qsval) : bool :=
  match v with
  | None => false
  | Some (QStr s) => negb (String.eqb s "")
  | Some _ => true
  end.

Definition join_comma (parts : list string) : string := String.concat "," parts.

(** ToString, which [parseFloat] applies to its argument. *)
Fixpoint q_toString (v : qsval) : string :=
  match v with
  | QStr s => s
  | QArr elements => join_comma (map q_toString elements)
  | QObj _ => "[object Object]"
  end.

Module Row.
(** Modelled from the spec: a row of the offers table as the driver hands
    it to the handler, after section 3 of the specification (the schema is
    not part of the source): texts, numeric [discountValue] and
    [minTxnValue], and a numeric [maxDiscount] that may be [NULL]. *)
Record t : Type := make {
  id : string;
  description : string;
  bankName : string;
  paymentInstrument : string;
  discountType : string;
  discountValue : number;
  maxDiscount : option number;
  minTxnValue : number
}.
End Row.

(** The body of the [forEach] callback up to the comparison with the
    running maximum: the discount of one offer. *)
Definition currentDiscount (parsedAmount : number) (offer : Row.t) : number :=
  if String.eqb (Row.discountType offer) "FLAT" then Row.discountValue offer
  else if String.eqb (Row.discountType offer) "PERCENTAGE" then
    let percentage :=
      num_mul (num_div (Row.discountValue offer) (num_of_Z 100)) parsedAmount in
    match Row.maxDiscount offer with
    | Some cap =>
        if num_truthy cap && num_gt percentage cap then cap else percentage
    | None => percentage
    end
  else num_of_Z 0.

Definition keep_highest (parsedAmount highestDiscount : number) (offer : Row.t)
  : number :=
  if num_gt (currentDiscount parsedAmount offer) highestDiscount
  then currentDiscount parsedAmount offer
  else highestDiscount.

Definition highestDiscount (parsedAmount : number) (applicableOffers : list Row.t)
  : number :=
  fold_left (keep_highest parsedAmount) applicableOffers (num_of_Z 0).

(** The handler once the rows are there. *)
Definition select_highest (parsedAmount : number) (applicableOffers : list Row.t)
  : response :=
  if (List.length applicableOffers =? 0)%nat then
    respond 200 (HighestDiscount (num_of_Z 0))
  else
    respond 200
      (HighestDiscount
         (parseFloat_toFixed2 (highestDiscount parsedAmount applicableOffers))).

Inductive discount_handling : Type :=
| DiscountSend (r : response)
| DiscountSelect (bankName paymentInstrument : string) (parsedAmount : number)
    (k : result (list Row.t) -> response).

Definition discount_catch (e : js_error) : response :=
  respond 500
    (ErrorBody "An internal server error occurred while calculating discount.").

Section HighestDiscountHandler.

(** [String.prototype.toUpperCase] of the host: its result is only handed
    to the store. *)
Variable toUpperCase : string -> string.

(** [v.toUpperCase()]: only a text has the method. *)
Definition call_toUpperCase (v : option qsval) : result string :=
  match v with
  | Some (QStr s) => Ok (toUpperCase s)
  | None => Throw (TypeError "Cannot read properties: toUpperCase")
  | Some _ => Throw (TypeError "toUpperCase is not a function")
  end.

Definition highest_discount_try (amountToPay bankName paymentInstrument : option qsval)
  : result discount_handling :=
  if negb (q_truthy amountToPay) || negb (q_truthy bankName)
     || negb (q_truthy paymentInstrument)
  then
    Ok (DiscountSend (respond 400 (ErrorBody
          "Missing required query parameters: amountToPay, bankName, and paymentInstrument are required.")))
  else
    let parsedAmount :=
      parseFloat (match amountToPay with Some v => q_toString v | None => "undefined" end) in
    if isNaN parsedAmount then
      Ok (DiscountSend (respond 400
            (ErrorBody "Invalid amountToPay. Must be a number.")))
    else
      bank <- call_toUpperCase bankName ;;
      instrument <- call_toUpperCase paymentInstrument ;;
      Ok (DiscountSelect bank instrument parsedAmount (fun outcome =>
            match outcome with
            | Ok applicableOffers => select_highest parsedAmount applicableOffers
            | Throw e => discount_catch e
            end)).

Definition get_highest_discount (amountToPay bankName paymentInstrument : option qsval)
  : discount_handling :=
  match highest_discount_try amountToPay bankName paymentInstrument with
  | Ok h => h
  | Throw e => DiscountSend (discount_catch e)
  end.

End HighestDiscountHandler.

(** The response a handling ends in, given the outcome of its statement. *)
Definition discount_response (h : discount_handling) (outcome : result (list Row.t))
  : response :=
  match h with
  | DiscountSend r => r
  | DiscountSelect _ _ _ k => k outcome
  end.

(** ** What the specification says, in its own words *)

(** "The description with all whitespace removed": every white-space unit is
    dropped, the others are kept in order. *)
Fixpoint without_whitespace (s : string) : string :=
  match s with
  | EmptyString => EmptyString
  | String c rest =>
      if is_whitespace c then without_whitespace rest
      else String c (without_whitespace rest)
  end.

(** The capital letters below 256: A to Z, and the accented capitals 192
    to 222 but the multiplication sign. Each has its small letter 32 units
    above, and no other unit below 256 changes when a text is lower-cased. *)
Definition is_capital (c : ascii) : bool :=
  unit_between 65 90 c
  || (unit_between 192 222 c && negb (unit_between 215 215 c)).

(** Two units are the same letter up to case: the same unit, or a capital
    and its small letter. *)
Definition same_up_to_case (c d : ascii) : bool :=
  Ascii.eqb c d
  || (is_capital c && (nat_of_ascii d =? nat_of_ascii c + 32)%nat)
  || (is_capital d && (nat_of_ascii c =? nat_of_ascii d + 32)%nat).

(** Two texts that differ only in whitespace and in the case of letters
    that stand unit for unit: either may carry white space the other lacks,
    and units at matching places are the same letter up to case. *)
Inductive same_modulo_space_and_case : string -> string -> Prop :=
| same_empty : same_modulo_space_and_case "" ""
| same_space_left (c : ascii) (s t : string) :
    is_whitespace c = true ->
    same_modulo_space_and_case s t ->
    same_modulo_space_and_case (String c s) t
| same_space_right (c : ascii) (s t : string) :
    is_whitespace c = true ->
    same_modulo_space_and_case s t ->
    same_modulo_space_and_case s (String c t)
| same_letter (c d : ascii) (s t : string) :
    same_up_to_case c d = true ->
    same_modulo_space_and_case s t ->
    same_modulo_space_and_case (String c s) (String d t).







(** An entry of the offers array "has a string description". *)
Definition has_string_description (rawOffer : jsval) : bool :=
  match rawOffer with
  | JObj properties =>
      match own_property "description" properties with
      | Some (JStr _) => true
      | _ => false
      end
  | _ => false
  end.

(** "min(a, b)": the smaller of two numbers. *)
Definition num_min (a b : number) : number := if num_lt b a then b else a.

Definition is_zero (x : number) : bool :=
  match x with
  | S754_zero _ => true
  | _ => false
  end.

(** A query parameter "is missing": it is absent from the query string, or
    there with an empty text. *)
Definition missing (v : option qsval) : Prop := v = None \/ v = Some (QStr "").

Fixpoint is_blank (s : string) : bool :=
  match s with
  | EmptyString => true
  | String c rest => is_whitespace c && is_blank rest
  end.

(** A text "is numeric": white space at its ends apart, it is a decimal
    literal from its first unit to its last. *)
Definition is_numeric (s : string) : bool :=
  match scan_literal (trim_start s) with
  | Some (_, rest) => is_blank rest
  | None => false
  end.

Definition non_numeric (v : option qsval) : Prop :=
  exists w, v = Some w /\ is_numeric (q_toString w) = false.

(** The text does not even start with a number. *)
Definition no_numeric_prefix (v : option qsval) : Prop :=
  exists w, v = Some w /\ scan_literal (trim_start (q_toString w)) = None.

(** [toUpperCase] on texts whose units are all below 128. *)
Definition upper_unit (c : ascii) : ascii :=
  if unit_between 97 122 c then ascii_of_nat (nat_of_ascii c - 32) else c.

Fixpoint toUpperCase_ascii (s : string) : string :=
  match s with
  | EmptyString => EmptyString
  | String c rest => String (upper_unit c) (toUpperCase_ascii rest)
  end.

(** The rows of the scenarios. *)
Definition axis_flat_row : Row.t :=
  Row.make "flat100offonaxiscreditcards" "Flat 100 off on AXIS credit cards"
    "AXIS" "CREDIT" "FLAT" (num_of_Z 100) None (num_of_Z 500).

Definition percentage_row (discountValue : Z) (maxDiscount : option Z) : Row.t :=
  Row.make "10%off" "10% off" "AXIS" "CREDIT" "PERCENTAGE"
    (num_of_Z discountValue) (option_map num_of_Z maxDiscount) (num_of_Z 0).

(** A PERCENTAGE offer of the payload with an explicit cap of zero. *)
Definition zero_cap_offer : jsval :=
  JObj [("description", JStr "10% off");
        ("bankName", JStr "AXIS");
        ("paymentInstrument", JStr "CREDIT");
        ("discountType", JStr "PERCENTAGE");
        ("discountValue", JNum (num_of_Z 10));
        ("maxDiscount", JNum (num_of_Z 0));
        ("minTxnValue", JNum (num_of_Z 0))].

(** C6 as it is stated: the answer is a 400 exactly when a parameter is
    missing or [amountToPay] is not numeric. *)
Definition bad_request_iff_missing_or_non_numeric
    (toUpperCase : string -> string)
    (amountToPay bankName paymentInstrument : option qsval)
    (outcome : result (list Row.t)) : Prop :=
  status (discount_response
            (get_highest_discount toUpperCase amountToPay bankName paymentInstrument)
            outcome) = 400%nat
  <-> (missing amountToPay \/ missing bankName \/ missing paymentInstrument
       \/ non_numeric amountToPay).

(** The value of a text of digits, read on top of [acc]. *)
Fixpoint horner (acc : Z) (s : string) : Z :=
  match s with
  | EmptyString => acc
  | String c rest => horner (10 * acc + digit_value c) rest
  end.

Fixpoint all_digits (s : string) : bool :=
  match s with
  | EmptyString => true
  | String c rest => is_digit c && all_digits rest
  end.

Definition no_digit_ahead (s : string) : bool :=
  match s with
  | EmptyString => true
  | String c _ => negb (is_digit c)
  end.

Fixpoint uint_horner (acc : Z) (d : Decimal.uint) : Z :=
  match d with
  | Decimal.Nil => acc
  | Decimal.D0 d => uint_horner (10 * acc + 0) d
  | Decimal.D1 d => uint_horner (10 * acc + 1) d
  | Decimal.D2 d => uint_horner (10 * acc + 2) d
  | Decimal.D3 d => uint_horner (10 * acc + 3) d
  | Decimal.D4 d => uint_horner (10 * acc + 4) d
  | Decimal.D5 d => uint_horner (10 * acc + 5) d
  | Decimal.D6 d => uint_horner (10 * acc + 6) d
  | Decimal.D7 d => uint_horner (10 * acc + 7) d
  | Decimal.D8 d => uint_horner (10 * acc + 8) d
  | Decimal.D9 d => uint_horner (10 * acc + 9) d
  end.

(** [n] hundredths are as near to [m * 2 ^ e] as hundredths get: twice the
    distance from [n] to the hundredfold of [m * 2 ^ e] is at most one. *)
Definition nearest_to_hundredfold (n : Z) (m : positive) (e : Z) : Prop :=
  if (0 <=? e)%Z then n = (100 * Zpos m * 2 ^ e)%Z
  else (2 * Z.abs (n * 2 ^ (- e) - 100 * Zpos m) <= 2 ^ (- e))%Z.

(** [h] is the highest discount of [offers]: a number that no discount
    exceeds, and zero or a discount above zero. *)
Definition is_highest (parsedAmount : number) (offers : list Row.t) (h : number) : Prop :=
  isNaN h = false
  /\ (forall offer, In offer offers -> num_gt (currentDiscount parsedAmount offer) h = false)
  /\ (h = num_of_Z 0
      \/ exists offer, In offer offers
           /\ h = currentDiscount parsedAmount offer /\ num_gt h (num_of_Z 0) = true).

(** The sign of [x], when it is a number, is [sx]. *)
Definition sign_is (sx : bool) (x : number) : Prop :=
  match x with
  | S754_nan => True
  | S754_zero s | S754_infinity s | S754_finite s _ _ => s = sx
  end.

Fixpoint all_units (P : ascii -> bool) (s : string) : bool :=
  match s with
  | EmptyString => true
  | String c rest => P c && all_units P rest
  end.

(** The parameter is a single text, not a list or an object. *)
Definition is_text (v : option qsval) : bool :=
  match v with
  | Some (QStr _) => true
  | _ => false
  end.

(** Case analysis on the comparisons inside [SFcompare]. *)
Ltac compare_cases :=
  repeat match goal with
         | H : context [Z.compare ?a ?b] |- _ =>
             destruct (Z.compare_spec a b); try discriminate H
         | |- context [Z.compare ?a ?b] =>
             destruct (Z.compare_spec a b)
         | H : context [Pos.compare_cont Eq ?a ?b] |- _ =>
             change (Pos.compare_cont Eq a b) with (Pos.compare a b) in H;
             destruct (Pos.compare_spec a b); try discriminate H
         | |- context [Pos.compare_cont Eq ?a ?b] =>
             change (Pos.compare_cont Eq a b) with (Pos.compare a b);
             destruct (Pos.compare_spec a b)
         end.

Ltac float_cases :=
  repeat match goal with
         | x : number |- _ => destruct x as [?s|?s| |?s ?m ?e]
         end;
  repeat match goal with s : bool |- _ => destruct s end;
  simpl; try discriminate; try reflexivity.

(** ** Properties of the string helpers *)

Lemma replace_whitespace_in_match (s : string) :
  replace_whitespace s = without_whitespace s /\ in_match s = without_whitespace s.
Proof.
  induction s as [|c rest [IHcopy IHmatch]]; simpl.
  - split; reflexivity.
  - destruct (is_whitespace c); rewrite ?IHcopy, ?IHmatch; split; reflexivity.
Qed.

Lemma replace_whitespace_spec (s : string) :
  replace_whitespace s = without_whitespace s.
Proof. exact (proj1 (replace_whitespace_in_match s)). Qed.

Lemma ascii_all (P : ascii -> bool) :
  (forall n, (n < 256)%nat -> P (ascii_of_nat n) = true) ->
  forall c, P c = true.
Proof.
  intros H c. rewrite <- (ascii_nat_embedding c).
  apply H, nat_ascii_bounded.
Qed.

Lemma below_256_all (P : nat -> bool) :
  forallb P (seq 0 256) = true -> forall n, (n < 256)%nat -> P n = true.
Proof.
  intros H n Hn. rewrite forallb_forall in H. apply H.
  apply in_seq. lia.
Qed.

Lemma whitespace_lower_unit (c : ascii) :
  is_whitespace (lower_unit c) = is_whitespace c.
Proof.
  apply Bool.eqb_prop.
  revert c. apply (ascii_all (fun c => Bool.eqb (is_whitespace (lower_unit c)) (is_whitespace c))).
  apply (below_256_all (fun n => Bool.eqb (is_whitespace (lower_unit (ascii_of_nat n)))
                                   (is_whitespace (ascii_of_nat n)))).
  vm_compute. reflexivity.
Qed.

Lemma same_lower_same_whitespace (c d : ascii) :
  lower_unit c = lower_unit d -> is_whitespace c = is_whitespace d.
Proof.
  intros H. rewrite <- (whitespace_lower_unit c), <- (whitespace_lower_unit d), H.
  reflexivity.
Qed.

Lemma same_up_to_case_lower (c d : ascii) :
  same_up_to_case c d = Ascii.eqb (lower_unit c) (lower_unit d).
Proof.
  pose (agree := fun c d =>
          Bool.eqb (same_up_to_case c d) (Ascii.eqb (lower_unit c) (lower_unit d))).
  assert (Hall : forall c,
             forallb (fun m => agree c (ascii_of_nat m)) (seq 0 256) = true).
  { apply (ascii_all (fun c => forallb (fun m => agree c (ascii_of_nat m)) (seq 0 256))).
    apply (below_256_all
             (fun n => forallb (fun m => agree (ascii_of_nat n) (ascii_of_nat m))
                         (seq 0 256))).
    vm_compute. reflexivity. }
  specialize (Hall c). rewrite forallb_forall in Hall.
  specialize (Hall (nat_of_ascii d)). rewrite ascii_nat_embedding in Hall.
  apply Bool.eqb_prop, Hall, in_seq.
  pose proof (nat_ascii_bounded d). lia.
Qed.

Lemma same_up_to_case_iff (c d : ascii) :
  same_up_to_case c d = true <-> lower_unit c = lower_unit d.
Proof. rewrite same_up_to_case_lower. apply Ascii.eqb_eq. Qed.

Lemma same_modulo_same_key (s t : string) :
  same_modulo_space_and_case s t ->
  toLowerCase (without_whitespace s) = toLowerCase (without_whitespace t).
Proof.
  induction 1 as [|c s t Hc _ IH|c s t Hc _ IH|c d s t Hcd _ IH]; simpl.
  - reflexivity.
  - rewrite Hc. exact IH.
  - rewrite Hc. exact IH.
  - apply same_up_to_case_iff in Hcd.
    rewrite (same_lower_same_whitespace c d Hcd).
    destruct (is_whitespace d); simpl; [exact IH|].
    rewrite Hcd, IH. reflexivity.
Qed.





Lemma toLowerCase_length (s : string) :
  String.length (toLowerCase s) = String.length s.
Proof. induction s as [|c s IH]; simpl; [reflexivity|rewrite IH; reflexivity]. Qed.





(** ** The normalizer *)

Lemma standardize_string (rawOffer : jsval) :
  has_string_description rawOffer = true ->
  exists r, standardize rawOffer = Ok r.
Proof.
  destruct rawOffer as [| |b|x|s|l|properties]; simpl; try discriminate.
  intros H. unfold standardize. simpl.
  destruct (own_property "description" properties) as [[| |b|x|s|l|q]|];
    try discriminate.
  simpl.
  repeat match goal with
         | |- context [own_property ?n properties] =>
             destruct (own_property n properties); simpl
         end; eauto.
Qed.

Lemma standardize_not_string (rawOffer : jsval) :
  has_string_description rawOffer = false ->
  exists e, standardize rawOffer = Throw e.
Proof.
  unfold standardize.
  destruct rawOffer as [| |b|x|s|l|properties]; simpl; eauto.
  intros H.
  destruct (own_property "description" properties) as [[| |b|x|s|l|q]|];
    simpl; eauto; discriminate.
Qed.

Lemma array_map_all_ok {A : Type} (f : jsval -> result A) (elements : list jsval) :
  (forall v, In v elements -> exists a, f v = Ok a) ->
  exists l, array_map f elements = Ok l
            /\ List.length l = List.length elements
            /\ forall i v, nth_error elements i = Some v ->
                 exists a, nth_error l i = Some a /\ f v = Ok a.
Proof.
  induction elements as [|v rest IH]; intros Hall; simpl.
  - exists []. repeat split. intros [|i] v H; discriminate.
  - destruct (Hall v (or_introl eq_refl)) as [a Ha].
    destruct IH as (l & Hl & Hlen & Hnth).
    { intros w Hw. apply Hall. right. exact Hw. }
    rewrite Ha, Hl. simpl. exists (a :: l). repeat split.
    + simpl. rewrite Hlen. reflexivity.
    + intros [|i] w H; simpl in *.
      * inversion H; subst. eauto.
      * apply Hnth. exact H.
Qed.

Lemma array_map_one_throw {A : Type} (f : jsval -> result A) (elements : list jsval) :
  (exists v, In v elements /\ exists e, f v = Throw e) ->
  exists e, array_map f elements = Throw e.
Proof.
  induction elements as [|v rest IH]; intros (w & Hin & e & He); simpl.
  - destruct Hin.
  - destruct (f v) as [a|e'] eqn:Hv; simpl; eauto.
    destruct Hin as [->|Hin]; [congruence|].
    destruct IH as [e2 He2]; [eauto|].
    rewrite He2. simpl. eauto.
Qed.

(** ** [POST /offer]: what every request gets *)

Lemma flipkartApiResponse_unbound (env : string -> jsval) :
  read_identifier offer_scope env "flipkartApiResponse"
  = Throw (ReferenceError "flipkartApiResponse").
Proof. reflexivity. Qed.

Lemma post_offer_always_fails (req_body : jsval) :
  post_offer req_body
  = OfferSend (respond 500
      (ErrorBody "An internal server error occurred while saving offers.")).
Proof.
  unfold post_offer, post_offer_try.
  destruct (get_prop req_body "flipkartOfferApiResponse") as [v|e]; cbn [bind].
  - rewrite flipkartApiResponse_unbound. reflexivity.
  - reflexivity.
Qed.

Lemma serve_post_offer (req_body : jsval) (db : Store) :
  serve_offer (post_offer req_body) db
  = (respond 500
       (ErrorBody "An internal server error occurred while saving offers."), db).
Proof. rewrite post_offer_always_fails. reflexivity. Qed.

(** C1. The scenario payload with one FLAT offer, posted to an available and
    empty store, is answered with status 500 and an error body, not with
    status 201 and the counts 1 and 1: the guard of the handler reads an
    identifier that is bound nowhere, and the exception lands in the [catch]
    block. Nothing is stored. *)
Theorem post_offer_scenario_fails :
  serve_offer (post_offer scenario_body) (mkStore [] true)
  = (respond 500
       (ErrorBody "An internal server error occurred while saving offers."),
     mkStore [] true)
  /\ status (fst (serve_offer (post_offer scenario_body) (mkStore [] true))) <> 201%nat.
Proof.
  rewrite serve_post_offer. split; [reflexivity|]. simpl. discriminate.
Qed.

(** C2. A body without the top-level field is answered with status 500 and
    the generic error, not with status 400 and the message about the missing
    field; no statement is issued. *)
Theorem post_offer_missing_field_fails :
  post_offer (JObj [])
  = OfferSend (respond 500
      (ErrorBody "An internal server error occurred while saving offers."))
  /\ post_offer (JObj [])
     <> OfferSend (respond 400
          (ErrorBody "Missing flipkartOfferApiResponse in request body.")).
Proof.
  rewrite post_offer_always_fails. split; [reflexivity|discriminate].
Qed.

(** ** The path past the guard *)

Lemma parse_offers_array (properties : list (string * jsval)) (elements : list jsval) :
  own_property "offers" properties = Some (JArr elements) ->
  parseOffersFromPayload (JObj properties) = array_map standardize elements.
Proof.
  intros H. unfold parseOffersFromPayload. simpl. rewrite H. reflexivity.
Qed.

Lemma forallb_string_descriptions (elements : list jsval) :
  forallb has_string_description elements = true ->
  forall v, In v elements -> exists r, standardize v = Ok r.
Proof.
  intros H v Hv. rewrite forallb_forall in H.
  apply standardize_string, H, Hv.
Qed.

(** Past the guard, a payload with a non-empty array of offers that all have
    a string description leads to one bulk insert, answered with status 201,
    the number of entries and the number of rows the store reports. *)
Lemma store_offers_counts (properties : list (string * jsval)) (elements : list jsval) :
  own_property "offers" properties = Some (JArr elements) ->
  elements <> [] ->
  forallb has_string_description elements = true ->
  exists values k,
    store_offers (JObj properties) = Ok (OfferInsertIgnore values k)
    /\ List.length values = List.length elements
    /\ forall n, k (Ok n) = respond 201 (OfferCounts (List.length elements) n).
Proof.
  intros Hoffers Hne Hall. unfold store_offers.
  rewrite (parse_offers_array _ _ Hoffers).
  destruct (array_map_all_ok standardize elements
              (forallb_string_descriptions elements Hall)) as (l & Hl & Hlen & _).
  rewrite Hl. cbn [bind].
  destruct l as [|r l].
  - destruct elements; [congruence|discriminate].
  - simpl Nat.eqb. cbv iota. eexists _, _. split; [reflexivity|]. split.
    + rewrite length_map. exact Hlen.
    + intros n. rewrite Hlen. reflexivity.
Qed.

Lemma key_eqb_refl (s : string) : key_eqb (JStr s) (JStr s) = true.
Proof. simpl. apply String.eqb_refl. Qed.

Lemma has_key_app (k : jsval) (table : list (list jsval)) (row : list jsval) :
  has_key k (table ++ [row]) = has_key k table || key_eqb (key_of row) k.
Proof.
  unfold has_key. rewrite existsb_app. simpl. rewrite orb_false_r. reflexivity.
Qed.

Lemma insert_ignore_keeps (k : jsval) (values table : list (list jsval)) :
  has_key k table = true ->
  has_key k (snd (insert_ignore values table)) = true.
Proof.
  revert table. induction values as [|row rest IH]; intros table Hk; simpl.
  - exact Hk.
  - destruct (has_key (key_of row) table).
    + apply IH, Hk.
    + specialize (IH (table ++ [row])).
      destruct (insert_ignore rest (table ++ [row])) as [n table'] eqn:E.
      simpl in *. apply IH. rewrite has_key_app, Hk. reflexivity.
Qed.

Lemma insert_ignore_covers (values table : list (list jsval)) :
  (forall row, In row values -> exists s, key_of row = JStr s) ->
  forall row, In row values ->
    has_key (key_of row) (snd (insert_ignore values table)) = true.
Proof.
  revert table. induction values as [|r rest IH]; intros table Hkeys row Hin.
  - destruct Hin.
  - simpl. destruct (has_key (key_of r) table) eqn:Hr.
    + destruct Hin as [->|Hin].
      * apply insert_ignore_keeps, Hr.
      * apply IH; [|exact Hin]. intros x Hx. apply Hkeys. right. exact Hx.
    + pose proof (insert_ignore_keeps (key_of r) rest (table ++ [r])) as Hkeep.
      specialize (IH (table ++ [r])).
      destruct (insert_ignore rest (table ++ [r])) as [n table'] eqn:E.
      simpl in *. destruct Hin as [->|Hin].
      * apply Hkeep. rewrite has_key_app.
        destruct (Hkeys row (or_introl eq_refl)) as [s Hs].
        rewrite Hs, key_eqb_refl. apply orb_true_r.
      * apply IH; [|exact Hin]. intros x Hx. apply Hkeys. right. exact Hx.
Qed.

Lemma insert_ignore_present (values table : list (list jsval)) :
  (forall row, In row values -> has_key (key_of row) table = true) ->
  insert_ignore values table = (0%nat, table).
Proof.
  induction values as [|r rest IH]; intros H; simpl.
  - reflexivity.
  - rewrite (H r (or_introl eq_refl)). apply IH.
    intros row Hrow. apply H. right. exact Hrow.
Qed.

(** Inserting the same rows again adds nothing and leaves the table as it
    is. *)
Lemma insert_ignore_twice (values table : list (list jsval)) :
  (forall row, In row values -> exists s, key_of row = JStr s) ->
  insert_ignore values (snd (insert_ignore values table))
  = (0%nat, snd (insert_ignore values table)).
Proof.
  intros Hkeys. apply insert_ignore_present.
  intros row Hrow. apply insert_ignore_covers; assumption.
Qed.

Lemma values_of_keyed (offers : list Offer.t) :
  forall row, In row (map values_of offers) -> exists s, key_of row = JStr s.
Proof.
  intros row Hrow. apply in_map_iff in Hrow. destruct Hrow as (o & <- & _).
  simpl. eauto.
Qed.

(** Past the guard the ingestion is idempotent: when a payload has been
    stored with status 201, storing it again is answered with status 201 and
    no new offer, and the store is left as the first call left it. *)
Lemma store_offers_idempotent (payload : jsval) (db db1 : Store)
    (h : offer_handling) (identified created : nat) :
  store_offers payload = Ok h ->
  serve_offer h db = (respond 201 (OfferCounts identified created), db1) ->
  serve_offer h db1 = (respond 201 (OfferCounts identified 0), db1).
Proof.
  unfold store_offers.
  destruct (parseOffersFromPayload payload) as [offers|e]; cbn [bind]; [|discriminate].
  destruct (List.length offers =? 0)%nat.
  - intros [= <-]. simpl. discriminate.
  - intros [= <-]. cbn [serve_offer].
    destruct (available db) eqn:Hup; [|discriminate].
    pose proof (insert_ignore_twice (map values_of offers) (rows db)
                  (values_of_keyed offers)) as Htwice.
    destruct (insert_ignore (map values_of offers) (rows db)) as [n table'] eqn:E.
    intros [= <- <- <-]. cbn [available rows].
    simpl in Htwice. rewrite Htwice. reflexivity.
Qed.

(** C7. The scenario payload posted twice to an available store: the second
    call, like the first, is answered with status 500 and an error body,
    which has no [noOfNewOffersCreated]; the store is the same before and
    after, and never holds the offer. *)
Theorem post_offer_twice_fails :
  let db0 := mkStore [] true in
  let '(first, db1) := serve_offer (post_offer scenario_body) db0 in
  let '(second, db2) := serve_offer (post_offer scenario_body) db1 in
  second = respond 500
             (ErrorBody "An internal server error occurred while saving offers.")
  /\ (forall identified, json second <> OfferCounts identified 0)
  /\ db1 = db0 /\ db2 = db1.
Proof.
  cbv zeta. rewrite !serve_post_offer.
  repeat split. intros identified. simpl. discriminate.
Qed.

(** ** Totality of the normalizer *)

Lemma standardize_fields (rawOffer : jsval) (r : Offer.t) :
  standardize rawOffer = Ok r ->
  exists properties s,
    rawOffer = JObj properties
    /\ own_property "description" properties = Some (JStr s)
    /\ Offer.id r = toLowerCase (without_whitespace s)
    /\ Offer.description r = JStr s.
Proof.
  unfold standardize.
  destruct rawOffer as [| |b|x|s|l|properties]; simpl; try discriminate.
  destruct (own_property "description" properties) as [[| |b|x|s|l|q]|] eqn:Hd;
    simpl; try discriminate.
  repeat match goal with
         | |- context [own_property ?n properties] =>
             destruct (own_property n properties); simpl
         end;
    intros [= <-]; exists properties, s; simpl;
    rewrite replace_whitespace_spec; auto.
Qed.

Lemma forallb_false_exists {A : Type} (f : A -> bool) (l : list A) :
  forallb f l = false -> exists x, In x l /\ f x = false.
Proof.
  induction l as [|a l IH]; simpl; [discriminate|].
  destruct (f a) eqn:Ha; simpl.
  - intros H. destruct (IH H) as (x & Hx & Hfx). eauto.
  - intros _. eauto.
Qed.

(** C10. On a payload whose [offers] is an array, [parseOffersFromPayload]
    returns exactly when every entry has a string description: it then
    yields one record per entry, in payload order, each the standardized
    form of its entry, keyed by the normalized description. As soon as one
    entry has no string description it throws, whatever the other entries
    are: no record comes out, no statement is issued, and the endpoint
    answers with status 500. *)
Theorem parseOffersFromPayload_total_iff_string_descriptions
    (properties : list (string * jsval)) (elements : list jsval) :
  own_property "offers" properties = Some (JArr elements) ->
  (forallb has_string_description elements = true ->
     exists records,
       parseOffersFromPayload (JObj properties) = Ok records
       /\ List.length records = List.length elements
       /\ forall i rawOffer, nth_error elements i = Some rawOffer ->
            exists r fields s,
              nth_error records i = Some r
              /\ standardize rawOffer = Ok r
              /\ rawOffer = JObj fields
              /\ own_property "description" fields = Some (JStr s)
              /\ Offer.id r = toLowerCase (without_whitespace s)
              /\ Offer.description r = JStr s)
  /\ (forallb has_string_description elements = false ->
      (exists e, parseOffersFromPayload (JObj properties) = Throw e)
      /\ (exists e, store_offers (JObj properties) = Throw e)
      /\ post_offer (JObj [("flipkartOfferApiResponse", JObj properties)])
         = OfferSend (respond 500
             (ErrorBody "An internal server error occurred while saving offers."))).
Proof.
  intros Hoffers. split.
  - intros Hall.
    destruct (array_map_all_ok standardize elements
                (forallb_string_descriptions elements Hall)) as (l & Hl & Hlen & Hnth).
    exists l. rewrite (parse_offers_array _ _ Hoffers). repeat split; auto.
    intros i rawOffer Hi. destruct (Hnth i rawOffer Hi) as (r & Hr & Hstd).
    destruct (standardize_fields rawOffer r Hstd) as (fields & s & H1 & H2 & H3 & H4).
    exists r, fields, s. auto 10.
  - intros Hsome.
    destruct (forallb_false_exists _ _ Hsome) as (v & Hv & Hbad).
    assert (Hthrow : exists e, array_map standardize elements = Throw e).
    { apply array_map_one_throw. exists v. split; [exact Hv|].
      apply standardize_not_string, Hbad. }
    destruct Hthrow as [e He]. split; [|split].
    + exists e. rewrite (parse_offers_array _ _ Hoffers). exact He.
    + exists e. unfold store_offers.
      rewrite (parse_offers_array _ _ Hoffers), He. reflexivity.
    + apply post_offer_always_fails.
Qed.

Lemma parseOffersFromPayload_total_witness :
  (exists records,
     parseOffersFromPayload (JObj [("offers", JArr [axis_flat_offer])]) = Ok records
     /\ List.length records = 1%nat)
  /\ (exists e,
        parseOffersFromPayload
          (JObj [("offers", JArr [axis_flat_offer; JObj [("description", JNum (num_of_Z 5))]])])
        = Throw e).
Proof.
  split.
  - destruct (proj1 (parseOffersFromPayload_total_iff_string_descriptions
                       [("offers", JArr [axis_flat_offer])] [axis_flat_offer] eq_refl)
                eq_refl) as (records & Hok & Hlen & _).
    exists records. split; [exact Hok|exact Hlen].
  - exact (proj1 (proj2 (parseOffersFromPayload_total_iff_string_descriptions
                    [("offers", JArr [axis_flat_offer; JObj [("description", JNum (num_of_Z 5))]])]
                    [axis_flat_offer; JObj [("description", JNum (num_of_Z 5))]] eq_refl)
                  eq_refl)).
Defined.

(** ** Order of the numbers *)

Lemma num_gt_trans (x y z : number) :
  num_gt x y = true -> num_gt y z = true -> num_gt x z = true.
Proof.
  unfold num_gt, SFltb. float_cases;
    intros H1 H2; compare_cases; simpl in *; try discriminate; try reflexivity;
    subst; try lia.
Qed.

Lemma num_gt_irrefl (x : number) : num_gt x x = false.
Proof.
  unfold num_gt, SFltb. float_cases;
    rewrite Z.compare_refl;
    change (Pos.compare_cont Eq m m) with (Pos.compare m m);
    rewrite Pos.compare_refl; reflexivity.
Qed.

Lemma num_gt_not_nan (x y : number) :
  num_gt x y = true -> isNaN x = false /\ isNaN y = false.
Proof. unfold num_gt, SFltb. float_cases; auto. Qed.

Lemma num_gt_cotrans (x y z : number) :
  isNaN y = false -> num_gt x z = true ->
  num_gt x y = true \/ num_gt y z = true.
Proof.
  unfold num_gt, SFltb. float_cases; auto;
    intros H1 H2; compare_cases; simpl in *; try discriminate; auto;
    subst; try lia.
Qed.

Lemma num_le_of_not_gt (x y : number) :
  isNaN x = false -> isNaN y = false -> num_gt x y = false -> num_le x y = true.
Proof.
  unfold num_gt, num_le, SFltb, SFleb. float_cases;
    intros H1 H2 H3; compare_cases; simpl in *; try discriminate; auto;
    subst; try lia.
Qed.

(** Where both operands are numbers, [num_min] is the minimum: one of the
    two, and below both. *)
Lemma num_min_spec (a b : number) :
  isNaN a = false -> isNaN b = false ->
  (num_min a b = a \/ num_min a b = b)
  /\ num_le (num_min a b) a = true /\ num_le (num_min a b) b = true.
Proof.
  intros Ha Hb. unfold num_min, num_lt. fold (num_gt a b).
  destruct (num_gt a b) eqn:Hgt.
  - split; [auto|]. split.
    + apply num_le_of_not_gt; auto.
      destruct (num_gt b a) eqn:Hba; [|reflexivity].
      pose proof (num_gt_trans a b a Hgt Hba) as Haa.
      rewrite num_gt_irrefl in Haa. discriminate.
    + apply num_le_of_not_gt; auto. apply num_gt_irrefl.
  - split; [auto|]. split.
    + apply num_le_of_not_gt; auto. apply num_gt_irrefl.
    + apply num_le_of_not_gt; auto.
Qed.

(** ** The discount of one offer *)

(** C5. For a FLAT offer whose [minTxnValue] is at most the amount, the
    discount is [discountValue] as it stands, whatever the amount. *)
Theorem flat_discount_verbatim (parsedAmount otherAmount : number) (offer : Row.t) :
  Row.discountType offer = "FLAT" ->
  num_le (Row.minTxnValue offer) parsedAmount = true ->
  currentDiscount parsedAmount offer = Row.discountValue offer
  /\ currentDiscount otherAmount offer = currentDiscount parsedAmount offer.
Proof.
  intros Hflat _. unfold currentDiscount. rewrite Hflat. simpl. auto.
Qed.

Lemma flat_discount_verbatim_witness :
  currentDiscount (num_of_Z 1000) axis_flat_row = num_of_Z 100
  /\ currentDiscount (num_of_Z 700) axis_flat_row
     = currentDiscount (num_of_Z 1000) axis_flat_row.
Proof.
  apply (flat_discount_verbatim (num_of_Z 1000) (num_of_Z 700) axis_flat_row).
  - reflexivity.
  - vm_compute. reflexivity.
Defined.

Lemma percentage_discount (parsedAmount : number) (offer : Row.t) :
  Row.discountType offer = "PERCENTAGE" ->
  currentDiscount parsedAmount offer
  = let percentage :=
      num_mul (num_div (Row.discountValue offer) (num_of_Z 100)) parsedAmount in
    match Row.maxDiscount offer with
    | Some cap => if num_truthy cap && num_gt percentage cap then cap else percentage
    | None => percentage
    end.
Proof.
  intros H. unfold currentDiscount. rewrite H. reflexivity.
Qed.

Lemma num_truthy_not_zero (cap : number) :
  is_zero cap = false -> num_truthy cap = negb (isNaN cap).
Proof. destruct cap; simpl; congruence. Qed.

(** C3, as the code has it. For a PERCENTAGE offer the discount is
    [min(discountValue / 100 * amount, maxDiscount)] when [maxDiscount] is
    present and not zero, and [discountValue / 100 * amount] when it is
    absent or zero; 10 percent of 1000 capped at 50 gives 50, not 100. *)
Theorem percentage_discount_capped :
  (forall parsedAmount offer,
      Row.discountType offer = "PERCENTAGE" ->
      let percentage :=
        num_mul (num_div (Row.discountValue offer) (num_of_Z 100)) parsedAmount in
      (forall cap, Row.maxDiscount offer = Some cap -> is_zero cap = false ->
                   currentDiscount parsedAmount offer = num_min percentage cap)
      /\ (forall cap, Row.maxDiscount offer = Some cap -> is_zero cap = true ->
                     currentDiscount parsedAmount offer = percentage)
      /\ (Row.maxDiscount offer = None ->
          currentDiscount parsedAmount offer = percentage))
  /\ currentDiscount (num_of_Z 1000) (percentage_row 10 (Some 50%Z)) = num_of_Z 50
  /\ currentDiscount (num_of_Z 1000) (percentage_row 10 (Some 50%Z)) <> num_of_Z 100.
Proof.
  split; [|split; [vm_compute; reflexivity|vm_compute; discriminate]].
  intros parsedAmount offer Hp percentage.
  rewrite (percentage_discount parsedAmount offer Hp). cbv zeta. fold percentage.
  split; [|split].
  - intros cap -> Hcap. unfold num_min, num_lt. fold (num_gt percentage cap).
    rewrite (num_truthy_not_zero cap Hcap).
    destruct cap; simpl; try reflexivity; discriminate.
  - intros cap -> Hcap. destruct cap; try discriminate. reflexivity.
  - intros ->. reflexivity.
Qed.

Lemma percentage_discount_capped_witness :
  currentDiscount (num_of_Z 1000) (percentage_row 10 (Some 50%Z))
  = num_min (num_mul (num_div (num_of_Z 10) (num_of_Z 100)) (num_of_Z 1000))
      (num_of_Z 50)
  /\ currentDiscount (num_of_Z 1000) (percentage_row 10 None)
     = num_mul (num_div (num_of_Z 10) (num_of_Z 100)) (num_of_Z 1000).
Proof.
  split.
  - apply (proj1 (proj1 percentage_discount_capped (num_of_Z 1000)
                    (percentage_row 10 (Some 50%Z)) eq_refl) (num_of_Z 50)).
    + reflexivity.
    + vm_compute. reflexivity.
  - apply (proj2 (proj2 (proj1 percentage_discount_capped (num_of_Z 1000)
                           (percentage_row 10 None) eq_refl))).
    reflexivity.
Defined.

(** C3, as it is stated, fails on a cap of zero: 10 percent of 1000 with
    [maxDiscount] 0 is computed as 100, while [min(100, 0)] is 0. *)
Lemma percentage_discount_zero_cap_counterexample :
  Row.maxDiscount (percentage_row 10 (Some 0%Z)) = Some (num_of_Z 0)
  /\ currentDiscount (num_of_Z 1000) (percentage_row 10 (Some 0%Z))
     <> num_min (num_mul (num_div (num_of_Z 10) (num_of_Z 100)) (num_of_Z 1000))
          (num_of_Z 0)
  /\ currentDiscount (num_of_Z 1000) (percentage_row 10 (Some 0%Z)) = num_of_Z 100
  /\ num_min (num_mul (num_div (num_of_Z 10) (num_of_Z 100)) (num_of_Z 1000))
       (num_of_Z 0) = num_of_Z 0.
Proof.
  split; [reflexivity|].
  split; [vm_compute; discriminate|].
  split; vm_compute; reflexivity.
Qed.

(** ** Falsy caps *)

Lemma standardize_maxDiscount (rawOffer : jsval) (r : Offer.t) :
  standardize rawOffer = Ok r ->
  exists v, get_prop rawOffer "maxDiscount" = Ok v
            /\ Offer.maxDiscount r = js_or v JNull.
Proof.
  unfold standardize.
  destruct rawOffer as [| |b|x|s|l|properties]; simpl; try discriminate.
  destruct (own_property "description" properties) as [[| |b|x|s|l|q]|];
    simpl; try discriminate.
  repeat match goal with
         | |- context [own_property ?n properties] =>
             destruct (own_property n properties); simpl
         end;
    intros [= <-]; eexists; split; reflexivity.
Qed.

(** C9. The normalizer turns every falsy [maxDiscount] into [null], an
    explicit 0 as well as an absent field, and keeps a truthy one; the
    selector takes a stored cap of 0, like [NULL], for no cap: the
    PERCENTAGE discount is then the plain percentage, so 10 percent of 1000
    with a cap of 0 is 100 and not 0. *)
Theorem falsy_maxDiscount_is_no_cap :
  (forall rawOffer r v,
      standardize rawOffer = Ok r ->
      get_prop rawOffer "maxDiscount" = Ok v ->
      (truthy v = false -> Offer.maxDiscount r = JNull)
      /\ (truthy v = true -> Offer.maxDiscount r = v))
  /\ (forall sgn, truthy (JNum (S754_zero sgn)) = false)
  /\ truthy JUndefined = false
  /\ (exists r, standardize zero_cap_offer = Ok r /\ Offer.maxDiscount r = JNull)
  /\ (forall parsedAmount offer,
        Row.discountType offer = "PERCENTAGE" ->
        (Row.maxDiscount offer = None
         \/ exists sgn, Row.maxDiscount offer = Some (S754_zero sgn)) ->
        currentDiscount parsedAmount offer
        = num_mul (num_div (Row.discountValue offer) (num_of_Z 100)) parsedAmount)
  /\ currentDiscount (num_of_Z 1000) (percentage_row 10 (Some 0%Z)) = num_of_Z 100.
Proof.
  split; [|split; [|split; [|split; [|split]]]].
  - intros rawOffer r v Hstd Hv.
    destruct (standardize_maxDiscount rawOffer r Hstd) as (w & Hw & Hmax).
    rewrite Hv in Hw. injection Hw as <-. rewrite Hmax. unfold js_or.
    split; intros ->; reflexivity.
  - intros sgn. reflexivity.
  - reflexivity.
  - eexists. split; reflexivity.
  - intros parsedAmount offer Hp Hcap.
    rewrite (percentage_discount parsedAmount offer Hp). cbv zeta.
    destruct Hcap as [->|[sgn ->]]; reflexivity.
  - vm_compute. reflexivity.
Qed.

Lemma falsy_maxDiscount_is_no_cap_witness :
  (exists r, standardize zero_cap_offer = Ok r /\ Offer.maxDiscount r = JNull)
  /\ currentDiscount (num_of_Z 1000) (percentage_row 10 (Some 0%Z))
     = num_mul (num_div (num_of_Z 10) (num_of_Z 100)) (num_of_Z 1000).
Proof.
  split.
  - destruct (proj1 (proj2 (proj2 (proj2 falsy_maxDiscount_is_no_cap)))) as (r & Hr & Hmax).
    exists r. split; [exact Hr|].
    apply (proj1 (proj1 falsy_maxDiscount_is_no_cap zero_cap_offer r
                    (JNum (num_of_Z 0)) Hr eq_refl)).
    reflexivity.
  - apply (proj1 (proj2 (proj2 (proj2 (proj2 falsy_maxDiscount_is_no_cap))))
             (num_of_Z 1000) (percentage_row 10 (Some 0%Z)) eq_refl).
    right. exists false. reflexivity.
Defined.

(** ** Printing with two decimals and reading back *)

Lemma scan_digits_app (ds rest : string) :
  all_digits ds = true -> no_digit_ahead rest = true ->
  forall acc count,
    scan_digits acc count (ds ++ rest)
    = (horner acc ds, (count + String.length ds)%nat, rest).
Proof.
  intros Hds Hrest. induction ds as [|c ds IH]; intros acc count; simpl.
  - rewrite Nat.add_0_r. destruct rest as [|c rest]; [reflexivity|].
    simpl in Hrest. simpl. destruct (is_digit c); [discriminate|reflexivity].
  - simpl in Hds. apply andb_prop in Hds. destruct Hds as [Hc Hds].
    rewrite Hc, (IH Hds). f_equal. f_equal. lia.
Qed.

Lemma all_digits_app (a b : string) :
  all_digits (a ++ b) = all_digits a && all_digits b.
Proof.
  induction a as [|c a IH]; simpl; [reflexivity|].
  rewrite IH, andb_assoc. reflexivity.
Qed.

Lemma horner_app (a b : string) (acc : Z) :
  horner acc (a ++ b) = horner (horner acc a) b.
Proof.
  revert acc. induction a as [|c a IH]; intros acc; simpl; [reflexivity|apply IH].
Qed.

Lemma string_of_uint_digits (d : Decimal.uint) :
  all_digits (NilEmpty.string_of_uint d) = true
  /\ forall acc, horner acc (NilEmpty.string_of_uint d) = uint_horner acc d.
Proof.
  induction d as [|d [IH1 IH2]|d [IH1 IH2]|d [IH1 IH2]|d [IH1 IH2]|d [IH1 IH2]
                  |d [IH1 IH2]|d [IH1 IH2]|d [IH1 IH2]|d [IH1 IH2]|d [IH1 IH2]];
    simpl; split; auto; intros acc; apply IH2.
Qed.

Lemma of_uint_acc_horner (d : Decimal.uint) (p : positive) :
  Zpos (Pos.of_uint_acc d p) = uint_horner (Zpos p) d.
Proof.
  revert p.
  induction d; intros p; cbn [Pos.of_uint_acc uint_horner];
    try reflexivity; rewrite IHd; f_equal; lia.
Qed.

Lemma of_uint_horner (d : Decimal.uint) :
  Z.of_N (Pos.of_uint d) = uint_horner 0 d.
Proof.
  induction d; cbn [Pos.of_uint uint_horner Z.of_N];
    try reflexivity; try exact IHd; apply of_uint_acc_horner.
Qed.

Lemma to_uint_horner (n : N) : uint_horner 0 (N.to_uint n) = Z.of_N n.
Proof.
  rewrite <- of_uint_horner. f_equal. apply DecimalN.Unsigned.of_to.
Qed.

Lemma to_uint_not_nil (n : N) : N.to_uint n <> Decimal.Nil.
Proof.
  destruct n as [|p]; simpl; [discriminate|].
  apply DecimalPos.Unsigned.to_uint_nonnil.
Qed.

Lemma substring_all (s : string) : String.substring 0 (String.length s) s = s.
Proof. induction s as [|c s IH]; simpl; [reflexivity|rewrite IH; reflexivity]. Qed.

Lemma substring_split (s : string) (k : nat) :
  (k <= String.length s)%nat ->
  (String.substring 0 k s ++ String.substring k (String.length s - k) s)%string = s.
Proof.
  revert k. induction s as [|c s IH]; intros k Hk; simpl in *.
  - destruct k; reflexivity.
  - destruct k as [|k]; simpl.
    + rewrite substring_all. reflexivity.
    + rewrite IH by lia. reflexivity.
Qed.

Lemma length_substring (s : string) (k n : nat) :
  (k + n <= String.length s)%nat -> String.length (String.substring k n s) = n.
Proof.
  revert k n. induction s as [|c s IH]; intros k n H; simpl in *.
  - destruct k, n; simpl in *; try reflexivity; lia.
  - destruct k as [|k].
    + destruct n as [|n]; simpl; [reflexivity|]. rewrite IH by lia. reflexivity.
    + apply IH. lia.
Qed.

Lemma append_empty_r (s : string) : (s ++ "")%string = s.
Proof. induction s as [|c s IH]; simpl; [reflexivity|rewrite IH; reflexivity]. Qed.

Lemma padded_digits_spec (n : Z) :
  (0 <= n)%Z ->
  all_digits (padded_digits n) = true
  /\ horner 0 (padded_digits n) = n
  /\ (3 <= String.length (padded_digits n))%nat.
Proof.
  intros Hn. unfold padded_digits.
  assert (Hd : NilZero.string_of_uint (N.to_uint (Z.to_N n))
               = NilEmpty.string_of_uint (N.to_uint (Z.to_N n))).
  { unfold NilZero.string_of_uint.
    pose proof (to_uint_not_nil (Z.to_N n)) as Hnil.
    destruct (N.to_uint (Z.to_N n)); [congruence|reflexivity..]. }
  rewrite Hd.
  destruct (string_of_uint_digits (N.to_uint (Z.to_N n))) as [Hall Hval].
  specialize (Hval 0%Z). rewrite to_uint_horner, Z2N.id in Hval by exact Hn.
  assert (Hlen : (1 <= String.length (NilEmpty.string_of_uint (N.to_uint (Z.to_N n))))%nat).
  { pose proof (to_uint_not_nil (Z.to_N n)) as Hnil.
    destruct (N.to_uint (Z.to_N n)); [congruence|simpl; lia..]. }
  set (digits := NilEmpty.string_of_uint (N.to_uint (Z.to_N n))) in *.
  destruct (String.length digits) as [|[|[|k]]] eqn:Hl; try lia.
  - rewrite all_digits_app, horner_app, Hall.
    change (horner 0 "00") with 0%Z. rewrite Hval.
    split; [reflexivity|]. split; [reflexivity|].
    cbn [String.append String.length]. rewrite Hl. lia.
  - rewrite all_digits_app, horner_app, Hall.
    change (horner 0 "0") with 0%Z. rewrite Hval.
    split; [reflexivity|]. split; [reflexivity|].
    cbn [String.append String.length]. rewrite Hl. lia.
  - rewrite Hl. split; [exact Hall|]. split; [exact Hval|lia].
Qed.

Lemma fixed2_split (n : Z) :
  (0 <= n)%Z ->
  exists a b,
    fixed2 n = (a ++ "." ++ b)%string
    /\ all_digits a = true /\ all_digits b = true
    /\ (1 <= String.length a)%nat /\ String.length b = 2%nat
    /\ horner 0 (a ++ b) = n.
Proof.
  intros Hn. destruct (padded_digits_spec n Hn) as (Hall & Hval & Hlen).
  unfold fixed2.
  set (padded := padded_digits n) in *.
  set (k := (String.length padded - 2)%nat).
  exists (String.substring 0 k padded), (String.substring k 2 padded).
  assert (Hsplit : (String.substring 0 k padded ++ String.substring k 2 padded)%string
                   = padded).
  { replace 2%nat with (String.length padded - k)%nat at 1 by (unfold k; lia).
    apply substring_split. unfold k. lia. }
  rewrite <- Hsplit, all_digits_app in Hall. apply andb_prop in Hall.
  destruct Hall as [Ha Hb].
  split; [reflexivity|]. split; [exact Ha|]. split; [exact Hb|]. split.
  - rewrite length_substring; unfold k; lia.
  - split; [apply length_substring; unfold k; lia|].
    rewrite Hsplit. exact Hval.
Qed.

Lemma digit_not_whitespace (c : ascii) : is_digit c = true -> is_whitespace c = false.
Proof.
  unfold is_digit, is_whitespace, unit_between. intros H.
  apply andb_prop in H. destruct H as [H1 H2].
  apply Nat.leb_le in H1. apply Nat.leb_le in H2.
  repeat match goal with
         | |- context [(?x <=? ?y)%nat] => destruct (Nat.leb_spec x y)
         end; simpl; try reflexivity; lia.
Qed.

Lemma digit_not_sign (c : ascii) (rest : string) :
  is_digit c = true -> scan_sign (String c rest) = (false, String c rest).
Proof.
  intros H. unfold scan_sign.
  destruct c as [[] [] [] [] [] [] [] []]; try reflexivity; discriminate.
Qed.

Lemma digit_not_Infinity (c : ascii) (rest : string) :
  is_digit c = true -> String.prefix "Infinity" (String c rest) = false.
Proof.
  intros H.
  destruct c as [[] [] [] [] [] [] [] []]; try reflexivity; discriminate.
Qed.

(** Reading back what [toFixed(2)] printed for [n] hundredths gives the
    literal [n] times ten to the minus two. *)
Lemma scan_fixed2 (negative : bool) (n : Z) :
  (0 <= n)%Z ->
  scan_unsigned negative (fixed2 n) = Some (LitDecimal negative n (-2), "")
  /\ exists c rest, fixed2 n = String c rest /\ is_digit c = true.
Proof.
  intros Hn.
  destruct (fixed2_split n Hn) as (a & b & -> & Ha & Hb & Hla & Hlb & Hval).
  destruct a as [|c a]; [simpl in Hla; lia|].
  pose proof Ha as Hc. simpl in Hc. apply andb_prop in Hc. destruct Hc as [Hc _].
  split.
  - unfold scan_unsigned. cbn [String.append].
    rewrite (digit_not_Infinity c _ Hc).
    change (String c (a ++ "." ++ b))%string with (String c a ++ "." ++ b)%string.
    rewrite (scan_digits_app (String c a) ("." ++ b)%string Ha eq_refl).
    cbn [String.append].
    rewrite <- (append_empty_r b) at 1.
    rewrite (scan_digits_app b "" Hb eq_refl), Hlb.
    rewrite <- horner_app, Hval.
    cbn [Nat.add String.length Nat.eqb andb scan_exponent]. reflexivity.
  - cbn [String.append]. eauto.
Qed.

Lemma nearest_hundredths_nonneg (m : positive) (e : Z) :
  (0 <= nearest_hundredths m e)%Z.
Proof.
  unfold nearest_hundredths. destruct (0 <=? e)%Z eqn:He.
  - apply Z.leb_le in He. pose proof (Z.pow_nonneg 2 e). nia.
  - apply Z.leb_gt in He. apply Z.div_pos.
    + pose proof (Z.pow_nonneg 2 (- e)). lia.
    + apply Z.pow_pos_nonneg; lia.
Qed.

Lemma nearest_hundredths_spec (m : positive) (e : Z) :
  nearest_to_hundredfold (nearest_hundredths m e) m e.
Proof.
  unfold nearest_to_hundredfold, nearest_hundredths.
  destruct (0 <=? e)%Z eqn:He; [reflexivity|].
  apply Z.leb_gt in He.
  replace (1 - e)%Z with (Z.succ (- e)) by lia.
  rewrite Z.pow_succ_r by lia.
  assert (Hpow : (0 < 2 ^ (- e))%Z) by (apply Z.pow_pos_nonneg; lia).
  set (k := (2 ^ (- e))%Z) in *.
  pose proof (Z.div_mod (200 * Z.pos m + k) (2 * k) ltac:(lia)) as Hdiv.
  pose proof (Z.mod_pos_bound (200 * Z.pos m + k) (2 * k) ltac:(lia)) as Hmod.
  set (n := ((200 * Z.pos m + k) / (2 * k))%Z) in *.
  set (r := ((200 * Z.pos m + k) mod (2 * k))%Z) in *.
  lia.
Qed.

(** [parseFloat(x.toFixed(2))] for a finite [x] below [1e21] in magnitude:
    the number nearest to [n / 100], where [n] hundredths are nearest to
    [x]. *)
Lemma parseFloat_toFixed2_finite (negative : bool) (m : positive) (e : Z) :
  below_1e21 m e = true ->
  parseFloat_toFixed2 (S754_finite negative m e)
  = literal_value (LitDecimal negative (nearest_hundredths m e) (-2))
  /\ nearest_to_hundredfold (nearest_hundredths m e) m e.
Proof.
  intros Hbelow. split; [|apply nearest_hundredths_spec].
  unfold parseFloat_toFixed2, toFixed2. rewrite Hbelow.
  destruct (scan_fixed2 negative (nearest_hundredths m e)
              (nearest_hundredths_nonneg m e)) as (Hscan & c & rest & Hc & Hd).
  unfold parseFloat, scan_literal. destruct negative.
  - cbn [String.append trim_start]. change (is_whitespace "-") with false.
    cbv iota. cbn [scan_sign]. rewrite Hscan. reflexivity.
  - cbn [String.append]. rewrite Hc in *. cbn [trim_start].
    rewrite (digit_not_whitespace c Hd), (digit_not_sign c rest Hd), Hscan.
    reflexivity.
Qed.

(** ** The highest discount *)

Lemma keep_highest_cases (parsedAmount acc : number) (offer : Row.t) :
  (keep_highest parsedAmount acc offer = currentDiscount parsedAmount offer
   /\ num_gt (currentDiscount parsedAmount offer) acc = true)
  \/ (keep_highest parsedAmount acc offer = acc
      /\ num_gt (currentDiscount parsedAmount offer) acc = false).
Proof.
  unfold keep_highest.
  destruct (num_gt (currentDiscount parsedAmount offer) acc); auto.
Qed.

Lemma keep_highest_not_nan (parsedAmount acc : number) (offer : Row.t) :
  isNaN acc = false -> isNaN (keep_highest parsedAmount acc offer) = false.
Proof.
  intros Hacc.
  destruct (keep_highest_cases parsedAmount acc offer) as [[-> Hgt]|[-> _]].
  - apply (num_gt_not_nan _ _ Hgt).
  - exact Hacc.
Qed.

Lemma num_gt_false_step (d acc h : number) :
  isNaN acc = false ->
  num_gt d acc = false -> num_gt acc h = false -> num_gt d h = false.
Proof.
  intros Hacc Hd Hh. destruct (num_gt d h) eqn:Hdh; [|reflexivity].
  destruct (num_gt_cotrans d acc h Hacc Hdh); congruence.
Qed.

(** The running maximum of the [forEach] loop, from any start [acc]: the
    result is not below the start, no discount exceeds it, and it is the
    start or a discount that exceeds the start. *)
Lemma fold_keep_highest (parsedAmount : number) (offers : list Row.t) :
  forall acc, isNaN acc = false ->
    let h := fold_left (keep_highest parsedAmount) offers acc in
    isNaN h = false
    /\ num_gt acc h = false
    /\ (forall offer, In offer offers ->
          num_gt (currentDiscount parsedAmount offer) h = false)
    /\ (h = acc
        \/ exists offer, In offer offers
             /\ h = currentDiscount parsedAmount offer /\ num_gt h acc = true).
Proof.
  induction offers as [|o rest IH]; intros acc Hacc; cbn [fold_left].
  - cbv zeta. repeat split; auto using num_gt_irrefl. intros offer [].
  - pose proof (keep_highest_not_nan parsedAmount acc o Hacc) as Hnext.
    destruct (IH _ Hnext) as (Hnan & Hge & Hall & Hattained). cbv zeta.
    set (h := fold_left (keep_highest parsedAmount) rest
                (keep_highest parsedAmount acc o)) in *.
    destruct (keep_highest_cases parsedAmount acc o) as [[Hk Hgt]|[Hk Hgt]];
      rewrite Hk in *.
    + split; [exact Hnan|]. split; [|split].
      * destruct (num_gt acc h) eqn:Hacch; [|reflexivity].
        rewrite (num_gt_trans _ _ _ Hgt Hacch) in Hge. discriminate.
      * intros offer [<-|Hin]; [exact Hge|apply Hall, Hin].
      * right. destruct Hattained as [->|(offer & Hin & Hh & Hhgt)].
        -- exists o. split; [left; reflexivity|]. split; [reflexivity|exact Hgt].
        -- exists offer. split; [right; exact Hin|]. split; [exact Hh|].
           apply (num_gt_trans _ _ _ Hhgt Hgt).
    + split; [exact Hnan|]. split; [exact Hge|]. split.
      * intros offer [<-|Hin]; [|apply Hall, Hin].
        apply (num_gt_false_step _ acc h Hacc Hgt Hge).
      * destruct Hattained as [->|(offer & Hin & Hh & Hhgt)]; [left; reflexivity|].
        right. exists offer. split; [right; exact Hin|]. split; assumption.
Qed.


Lemma select_highest_response (parsedAmount : number) (applicableOffers : list Row.t) :
  select_highest parsedAmount applicableOffers
  = respond 200
      (HighestDiscount
         (parseFloat_toFixed2 (highestDiscount parsedAmount applicableOffers))).
Proof.
  unfold select_highest. destruct applicableOffers as [|o rest]; [|reflexivity].
  vm_compute. reflexivity.
Qed.



(** ** Reading a number never yields NaN *)

Local Open Scope Z_scope.

Lemma shr_1_nonneg (mrs : shr_record) : 0 <= shr_m mrs -> 0 <= shr_m (shr_1 mrs).
Proof.
  destruct mrs as [m r s]. simpl.
  destruct m as [|p|p]; simpl; try lia; destruct p; simpl; lia.
Qed.

Lemma iter_pos_invariant {A : Type} (P : A -> Prop) (f : A -> A) :
  (forall a, P a -> P (f a)) -> forall n a, P a -> P (iter_pos f n a).
Proof.
  intros Hf. induction n as [n IH|n IH|]; intros a Ha; simpl; auto.
Qed.

Lemma shr_nonneg (mrs : shr_record) (e n : Z) :
  0 <= shr_m mrs -> 0 <= shr_m (fst (shr mrs e n)).
Proof.
  intros H. unfold shr. destruct n; simpl; try exact H.
  apply (iter_pos_invariant (fun r => 0 <= shr_m r)); [apply shr_1_nonneg|exact H].
Qed.

Lemma shr_record_of_loc_m (m : Z) (l : location) : shr_m (shr_record_of_loc m l) = m.
Proof. destruct l as [|[ | | ]]; reflexivity. Qed.

Lemma shr_fexp_nonneg (p emx m e : Z) (l : location) :
  0 <= m -> 0 <= shr_m (fst (shr_fexp p emx m e l)).
Proof.
  intros H. unfold shr_fexp. apply shr_nonneg. rewrite shr_record_of_loc_m. exact H.
Qed.

Lemma round_nearest_even_nonneg (m : Z) (l : location) :
  0 <= m -> 0 <= round_nearest_even m l.
Proof.
  intros H. unfold round_nearest_even.
  destruct l as [|[ | | ]]; try lia. destruct (Z.even m); lia.
Qed.

Lemma binary_round_aux_not_nan (p emx : Z) (sx : bool) (mx ex : Z) (lx : location) :
  0 <= mx -> binary_round_aux p emx sx mx ex lx <> S754_nan.
Proof.
  intros H. unfold binary_round_aux.
  pose proof (shr_fexp_nonneg p emx mx ex lx H) as H1.
  destruct (shr_fexp p emx mx ex lx) as [mrs' e']. simpl in H1.
  pose proof (shr_fexp_nonneg p emx _ e' loc_Exact
                (round_nearest_even_nonneg _ (loc_of_shr_record mrs') H1)) as H2.
  destruct (shr_fexp p emx (round_nearest_even (shr_m mrs') (loc_of_shr_record mrs'))
              e' loc_Exact) as [mrs'' e''].
  simpl in H2. destruct (shr_m mrs'') as [|q|q]; try discriminate.
  - destruct (e'' <=? emx - p); discriminate.
  - lia.
Qed.

Lemma binary_round_not_nan (p emx : Z) (sx : bool) (mx : positive) (ex : Z) :
  binary_round p emx sx mx ex <> S754_nan.
Proof.
  unfold binary_round. destruct (shl_align mx ex _) as [mz ez].
  apply binary_round_aux_not_nan. lia.
Qed.

Lemma SFdiv_finite_not_nan (p emx : Z) (sx sy : bool) (mx my : positive) (ex ey : Z) :
  SFdiv p emx (S754_finite sx mx ex) (S754_finite sy my ey) <> S754_nan.
Proof.
  unfold SFdiv, SFdiv_core_binary.
  set (s := _ - _ - Z.min _ _).
  set (m' := match s with Z0 => _ | Zpos _ => _ | Zneg _ => _ end).
  assert (Hm : 0 <= m').
  { subst m'. destruct s; try lia. apply Z.shiftl_nonneg. lia. }
  pose proof (Z.div_pos m' (Zpos my) Hm ltac:(lia)) as Hq.
  unfold Z.div in Hq.
  destruct (Z.div_eucl m' (Zpos my)) as [q r]. simpl in Hq.
  apply binary_round_aux_not_nan. exact Hq.
Qed.

Local Close Scope Z_scope.

Lemma isNaN_false (x : number) : x <> S754_nan -> isNaN x = false.
Proof. destruct x; simpl; congruence. Qed.

Lemma literal_value_not_nan (l : literal) : isNaN (literal_value l) = false.
Proof.
  destruct l as [negative|negative [|m|m] e]; try reflexivity.
  unfold literal_value. destruct (0 <=? e)%Z.
  - apply isNaN_false, binary_round_not_nan.
  - apply isNaN_false, SFdiv_finite_not_nan.
Qed.

Lemma parseFloat_nan_iff (s : string) :
  isNaN (parseFloat s) = true <-> scan_literal (trim_start s) = None.
Proof.
  unfold parseFloat.
  destruct (scan_literal (trim_start s)) as [[l rest]|].
  - rewrite literal_value_not_nan. split; discriminate.
  - split; reflexivity.
Qed.

(** ** [GET /highest-discount]: the bad requests *)

Lemma q_truthy_false_iff (v : option qsval) : q_truthy v = false <-> missing v.
Proof.
  unfold missing. destruct v as [[s|l|q]|]; simpl.
  - destruct (String.eqb_spec s ""); simpl.
    + subst. split; auto.
    + split; [discriminate|]. intros [H|H]; congruence.
  - split; [discriminate|]. intros [H|H]; discriminate.
  - split; [discriminate|]. intros [H|H]; discriminate.
  - split; auto.
Qed.

Lemma q_truthy_true_some (v : option qsval) :
  q_truthy v = true -> exists w, v = Some w.
Proof. destruct v; [eauto|discriminate]. Qed.

Lemma select_highest_status (parsedAmount : number) (applicableOffers : list Row.t) :
  status (select_highest parsedAmount applicableOffers) = 200%nat.
Proof. rewrite select_highest_response. reflexivity. Qed.

(** What the handler does, case by case. *)
Lemma get_highest_discount_cases (toUpperCase : string -> string)
    (a b p : option qsval) :
  let h := get_highest_discount toUpperCase a b p in
  ((missing a \/ missing b \/ missing p \/ no_numeric_prefix a)
   /\ exists r, h = DiscountSend r /\ status r = 400%nat)
  \/ (~ (missing a \/ missing b \/ missing p \/ no_numeric_prefix a)
      /\ ((exists r, h = DiscountSend r /\ status r = 500%nat)
          \/ exists bank instrument amount k,
               h = DiscountSelect bank instrument amount k
               /\ isNaN amount = false
               /\ (forall rows, k (Ok rows) = select_highest amount rows)
               /\ (forall e, k (Throw e) = discount_catch e))).
Proof.
  cbv zeta. unfold get_highest_discount, highest_discount_try.
  destruct (q_truthy a) eqn:Ha; cbn [negb orb].
  2:{ left. split; [left; apply q_truthy_false_iff, Ha|]. eexists. split; reflexivity. }
  destruct (q_truthy b) eqn:Hb; cbn [negb orb].
  2:{ left. split; [right; left; apply q_truthy_false_iff, Hb|].
      eexists. split; reflexivity. }
  destruct (q_truthy p) eqn:Hp; cbn [negb orb].
  2:{ left. split; [right; right; left; apply q_truthy_false_iff, Hp|].
      eexists. split; reflexivity. }
  destruct (q_truthy_true_some a Ha) as [w ->].
  destruct (isNaN (parseFloat (q_toString w))) eqn:Hnan.
  - left. split.
    + right. right. right. exists w. split; [reflexivity|].
      apply parseFloat_nan_iff, Hnan.
    + eexists. split; reflexivity.
  - right. split.
    + intros [H|[H|[H|(w' & [= <-] & H)]]].
      * apply q_truthy_false_iff in H. congruence.
      * apply q_truthy_false_iff in H. congruence.
      * apply q_truthy_false_iff in H. congruence.
      * apply parseFloat_nan_iff in H. congruence.
    + destruct (call_toUpperCase toUpperCase b) as [bank|e]; cbn [bind].
      2:{ left. eexists. split; reflexivity. }
      destruct (call_toUpperCase toUpperCase p) as [instrument|e]; cbn [bind].
      2:{ left. eexists. split; reflexivity. }
      right. eexists _, _, _, _. split; [reflexivity|]. split; [exact Hnan|].
      split; reflexivity.
Qed.

Lemma accepted_request_selects (toUpperCase : string -> string)
    (w : qsval) (bank instrument : string) :
  ~ missing (Some w) -> ~ no_numeric_prefix (Some w) ->
  bank <> "" -> instrument <> "" ->
  exists k,
    get_highest_discount toUpperCase
      (Some w) (Some (QStr bank)) (Some (QStr instrument))
    = DiscountSelect (toUpperCase bank) (toUpperCase instrument)
        (parseFloat (q_toString w)) k
    /\ (forall rows, k (Ok rows) = select_highest (parseFloat (q_toString w)) rows)
    /\ (forall e, k (Throw e) = discount_catch e).
Proof.
  intros Hw Hnum Hbank Hinstrument.
  unfold get_highest_discount, highest_discount_try.
  destruct (q_truthy (Some w)) eqn:Ha;
    [|exfalso; apply Hw, q_truthy_false_iff, Ha].
  assert (Hb : q_truthy (Some (QStr bank)) = true).
  { simpl. apply negb_true_iff, String.eqb_neq, Hbank. }
  assert (Hp : q_truthy (Some (QStr instrument)) = true).
  { simpl. apply negb_true_iff, String.eqb_neq, Hinstrument. }
  rewrite Hb, Hp. cbn [negb orb].
  destruct (isNaN (parseFloat (q_toString w))) eqn:Hnan.
  - exfalso. apply Hnum. exists w. split; [reflexivity|].
    apply parseFloat_nan_iff, Hnan.
  - cbn [call_toUpperCase bind]. eexists. split; [reflexivity|].
    split; reflexivity.
Qed.

Lemma parseFloat_reads_prefix (s : string) (l : literal) (rest : string) :
  scan_literal (trim_start s) = Some (l, rest) -> parseFloat s = literal_value l.
Proof. intros H. unfold parseFloat. rewrite H. reflexivity. Qed.

(** C6, as the code has it. The answer is a 400 exactly when one of the
    three parameters is missing (absent or empty) or [amountToPay] does not
    start with a number. A 400 is sent without any statement being issued,
    and [amountToPay=abc] gets one. A request with the three parameters
    whose amount starts with a number is accepted: the one statement it
    issues carries the upper-cased names and [parseFloat(amountToPay)], the
    discounts are computed with that same amount, and that amount is the
    value of the number at the head of the text, whatever follows it:
    [12abc] is read as 12. *)
Theorem bad_request_iff_missing_or_no_number :
  (forall toUpperCase amountToPay bankName paymentInstrument outcome,
      let h := get_highest_discount toUpperCase amountToPay bankName paymentInstrument in
      (status (discount_response h outcome) = 400%nat
       <-> (missing amountToPay \/ missing bankName \/ missing paymentInstrument
            \/ no_numeric_prefix amountToPay))
      /\ (status (discount_response h outcome) = 400%nat ->
          exists r, h = DiscountSend r))
  /\ (forall toUpperCase,
        get_highest_discount toUpperCase
          (Some (QStr "abc")) (Some (QStr "AXIS")) (Some (QStr "CREDIT"))
        = DiscountSend (respond 400
            (ErrorBody "Invalid amountToPay. Must be a number.")))
  /\ (forall toUpperCase w bank instrument,
        ~ missing (Some w) -> ~ no_numeric_prefix (Some w) ->
        bank <> "" -> instrument <> "" ->
        exists k,
          get_highest_discount toUpperCase
            (Some w) (Some (QStr bank)) (Some (QStr instrument))
          = DiscountSelect (toUpperCase bank) (toUpperCase instrument)
              (parseFloat (q_toString w)) k
          /\ (forall rows,
                k (Ok rows) = select_highest (parseFloat (q_toString w)) rows)
          /\ (forall e, k (Throw e) = discount_catch e))
  /\ (forall s l rest,
        scan_literal (trim_start s) = Some (l, rest) ->
        parseFloat s = literal_value l)
  /\ scan_literal (trim_start "12abc") = Some (LitDecimal false 12 0, "abc")
  /\ parseFloat "12abc" = num_of_Z 12.
Proof.
  split; [|split; [intros toUpperCase; reflexivity|
                   split; [exact accepted_request_selects|
                   split; [exact parseFloat_reads_prefix|
                   split; [reflexivity|vm_compute; reflexivity]]]]].
  intros toUpperCase a b p outcome h.
  destruct (get_highest_discount_cases toUpperCase a b p)
    as [(Hbad & r & Hh & Hr)|(Hgood & [(r & Hh & Hr)|(bank & ins & amt & k & Hh & _ & Hok & Herr)])];
    fold h in Hh; rewrite Hh; cbn [discount_response].
  - rewrite Hr. split; [tauto|]. eauto.
  - rewrite Hr. split; [split; [discriminate|tauto]|discriminate].
  - assert (Hs : status (k outcome) <> 400%nat).
    { destruct outcome as [rows|e].
      - rewrite Hok, select_highest_status. discriminate.
      - rewrite Herr. discriminate. }
    split; [split; [congruence|tauto]|congruence].
Qed.

Lemma bad_request_iff_witness :
  status (discount_response
            (get_highest_discount toUpperCase_ascii
               (Some (QStr "abc")) (Some (QStr "AXIS")) (Some (QStr "CREDIT")))
            (Ok [])) = 400%nat
  /\ (exists r,
       get_highest_discount toUpperCase_ascii
         (Some (QStr "1000")) None (Some (QStr "CREDIT")) = DiscountSend r)
  /\ (exists k,
       get_highest_discount toUpperCase_ascii
         (Some (QStr "12abc")) (Some (QStr "axis")) (Some (QStr "credit"))
       = DiscountSelect "AXIS" "CREDIT" (parseFloat "12abc") k
       /\ k (Ok [axis_flat_row]) = select_highest (parseFloat "12abc") [axis_flat_row])
  /\ parseFloat "12abc" = literal_value (LitDecimal false 12 0).
Proof.
  split; [|split; [|split]].
  - apply (proj1 bad_request_iff_missing_or_no_number toUpperCase_ascii
             (Some (QStr "abc")) (Some (QStr "AXIS")) (Some (QStr "CREDIT")) (Ok [])).
    right. right. right. exists (QStr "abc"). split; reflexivity.
  - apply (proj2 (proj1 bad_request_iff_missing_or_no_number toUpperCase_ascii
                    (Some (QStr "1000")) None (Some (QStr "CREDIT")) (Ok []))).
    apply (proj1 bad_request_iff_missing_or_no_number toUpperCase_ascii
             (Some (QStr "1000")) None (Some (QStr "CREDIT")) (Ok [])).
    right. left. left. reflexivity.
  - destruct (proj1 (proj2 (proj2 bad_request_iff_missing_or_no_number))
                toUpperCase_ascii (QStr "12abc") "axis" "credit")
      as (k & Hk & Hrows & _).
    + intros [H|H]; discriminate.
    + intros (w & [= <-] & H). discriminate.
    + discriminate.
    + discriminate.
    + exists k. split; [exact Hk|apply Hrows].
  - apply (proj1 (proj2 (proj2 (proj2 bad_request_iff_missing_or_no_number)))
             "12abc" (LitDecimal false 12 0) "abc").
    reflexivity.
Defined.

(** C6, as it is stated, fails on a number followed by other characters:
    [amountToPay=12abc] is not numeric, yet the request is answered with
    status 200, the amount being read as 12. *)
Lemma trailing_characters_counterexample :
  non_numeric (Some (QStr "12abc"))
  /\ parseFloat "12abc" = num_of_Z 12
  /\ status (discount_response
               (get_highest_discount toUpperCase_ascii
                  (Some (QStr "12abc")) (Some (QStr "AXIS")) (Some (QStr "CREDIT")))
               (Ok [])) = 200%nat
  /\ ~ bad_request_iff_missing_or_non_numeric toUpperCase_ascii
        (Some (QStr "12abc")) (Some (QStr "AXIS")) (Some (QStr "CREDIT")) (Ok []).
Proof.
  assert (Hnon : non_numeric (Some (QStr "12abc"))).
  { exists (QStr "12abc"). split; reflexivity. }
  split; [exact Hnon|]. split; [vm_compute; reflexivity|].
  split; [reflexivity|].
  intros [_ H]. specialize (H (or_intror (or_intror (or_intror Hnon)))).
  revert H. vm_compute. discriminate.
Qed.

(** ** The highest discount as a function of the set of rows *)

Lemma highestDiscount_is_highest (parsedAmount : number) (offers : list Row.t) :
  is_highest parsedAmount offers (highestDiscount parsedAmount offers).
Proof.
  destruct (fold_keep_highest parsedAmount offers (num_of_Z 0) eq_refl)
    as (Hnan & _ & Hall & Hattained).
  repeat split; assumption.
Qed.

Lemma num_gt_zero_positive (x : number) :
  num_gt x (num_of_Z 0) = true ->
  (exists m e, x = S754_finite false m e) \/ x = S754_infinity false.
Proof.
  unfold num_gt, SFltb. change (num_of_Z 0) with (S754_zero false).
  destruct x as [s|[]| |[] m e]; simpl; try discriminate; eauto.
Qed.

Lemma positive_not_gt_eq (x y : number) :
  num_gt x (num_of_Z 0) = true -> num_gt y (num_of_Z 0) = true ->
  num_gt x y = false -> num_gt y x = false -> x = y.
Proof.
  intros Hx Hy.
  destruct (num_gt_zero_positive x Hx) as [(m & e & ->)| ->];
    destruct (num_gt_zero_positive y Hy) as [(m' & e' & ->)| ->];
    unfold num_gt, SFltb; simpl; try discriminate; try reflexivity.
  intros H1 H2. compare_cases; simpl in *; try discriminate; subst; try lia.
  reflexivity.
Qed.

Lemma is_highest_unique (parsedAmount : number) (l l' : list Row.t) (h h' : number) :
  (forall offer, In offer l <-> In offer l') ->
  is_highest parsedAmount l h -> is_highest parsedAmount l' h' -> h = h'.
Proof.
  intros Hsame (Hnan & Hall & Hatt) (Hnan' & Hall' & Hatt').
  destruct Hatt as [->|(o & Hin & Hh & Hpos)];
    destruct Hatt' as [->|(o' & Hin' & Hh' & Hpos')].
  - reflexivity.
  - apply Hsame in Hin'. specialize (Hall o' Hin').
    rewrite <- Hh' in Hall. congruence.
  - apply Hsame in Hin. specialize (Hall' o Hin).
    rewrite <- Hh in Hall'. congruence.
  - apply positive_not_gt_eq; auto.
    + apply Hsame in Hin. specialize (Hall' o Hin). rewrite <- Hh in Hall'. exact Hall'.
    + apply Hsame in Hin'. specialize (Hall o' Hin'). rewrite <- Hh' in Hall. exact Hall.
Qed.

(** X6. The highest discount depends on the set of rows only: their order
    and their repetitions do not change the answer. *)
Theorem highest_discount_same_rows (parsedAmount : number) (l l' : list Row.t) :
  (forall offer, In offer l <-> In offer l') ->
  highestDiscount parsedAmount l = highestDiscount parsedAmount l'
  /\ select_highest parsedAmount l = select_highest parsedAmount l'.
Proof.
  intros Hsame.
  assert (H : highestDiscount parsedAmount l = highestDiscount parsedAmount l').
  { apply (is_highest_unique parsedAmount l l'); auto using highestDiscount_is_highest. }
  split; [exact H|]. rewrite !select_highest_response, H. reflexivity.
Qed.

Lemma highest_discount_same_rows_witness :
  select_highest (num_of_Z 1000) [percentage_row 10 (Some 50%Z); axis_flat_row]
  = select_highest (num_of_Z 1000)
      [axis_flat_row; percentage_row 10 (Some 50%Z); axis_flat_row].
Proof.
  apply (highest_discount_same_rows (num_of_Z 1000)
           [percentage_row 10 (Some 50%Z); axis_flat_row]
           [axis_flat_row; percentage_row 10 (Some 50%Z); axis_flat_row]).
  intros offer. simpl. tauto.
Defined.

(** X7. The highest discount of two sets of rows put together is the higher
    of their highest discounts; adding rows never lowers the answer. *)
Theorem highest_discount_merge (parsedAmount : number) (l l' : list Row.t) :
  highestDiscount parsedAmount (l ++ l')
  = (if num_gt (highestDiscount parsedAmount l') (highestDiscount parsedAmount l)
     then highestDiscount parsedAmount l'
     else highestDiscount parsedAmount l)
  /\ num_le (highestDiscount parsedAmount l) (highestDiscount parsedAmount (l ++ l')) = true
  /\ num_le (highestDiscount parsedAmount l') (highestDiscount parsedAmount (l ++ l')) = true.
Proof.
  destruct (highestDiscount_is_highest parsedAmount l) as (Hnan & Hall & Hatt).
  destruct (highestDiscount_is_highest parsedAmount l') as (Hnan' & Hall' & Hatt').
  set (h := highestDiscount parsedAmount l) in *.
  set (h' := highestDiscount parsedAmount l') in *.
  assert (Hmerge : highestDiscount parsedAmount (l ++ l')
                   = if num_gt h' h then h' else h).
  { apply (is_highest_unique parsedAmount (l ++ l') (l ++ l'));
      [tauto|apply highestDiscount_is_highest|].
    destruct (num_gt h' h) eqn:Hgt.
    - split; [exact Hnan'|]. split.
      + intros offer Hin. apply in_app_or in Hin. destruct Hin as [Hin|Hin].
        * destruct (num_gt (currentDiscount parsedAmount offer) h') eqn:Hd; [|reflexivity].
          pose proof (num_gt_trans _ _ _ Hd Hgt) as Hbad.
          rewrite (Hall offer Hin) in Hbad. discriminate.
        * apply Hall', Hin.
      + destruct Hatt' as [Hz|(o & Hin & Ho & Hpos)]; [left; exact Hz|].
        right. exists o. split; [apply in_or_app; right; exact Hin|]. split; assumption.
    - split; [exact Hnan|]. split.
      + intros offer Hin. apply in_app_or in Hin. destruct Hin as [Hin|Hin].
        * apply Hall, Hin.
        * apply (num_gt_false_step _ h' h Hnan' (Hall' offer Hin) Hgt).
      + destruct Hatt as [Hz|(o & Hin & Ho & Hpos)]; [left; exact Hz|].
        right. exists o. split; [apply in_or_app; left; exact Hin|]. split; assumption. }
  split; [exact Hmerge|]. rewrite Hmerge.
  destruct (num_gt h' h) eqn:Hgt; split.
  - apply num_le_of_not_gt; auto.
    destruct (num_gt h h') eqn:Hhh; [|reflexivity].
    pose proof (num_gt_trans _ _ _ Hgt Hhh) as Hbad.
    rewrite num_gt_irrefl in Hbad. discriminate.
  - apply num_le_of_not_gt; auto using num_gt_irrefl.
  - apply num_le_of_not_gt; auto using num_gt_irrefl.
  - apply num_le_of_not_gt; auto.
Qed.

(** X8. Rows whose discount is zero, negative or not a number can be left
    out without changing the highest discount. *)
Theorem highest_discount_ignores_non_positive (parsedAmount : number) (l : list Row.t) :
  highestDiscount parsedAmount
    (filter (fun offer => num_gt (currentDiscount parsedAmount offer) (num_of_Z 0)) l)
  = highestDiscount parsedAmount l.
Proof.
  set (kept := filter _ l).
  apply (is_highest_unique parsedAmount kept kept);
    [tauto|apply highestDiscount_is_highest|].
  destruct (highestDiscount_is_highest parsedAmount l) as (Hnan & Hall & Hatt).
  split; [exact Hnan|]. split.
  - intros offer Hin. apply filter_In in Hin. apply Hall, Hin.
  - destruct Hatt as [Hz|(o & Hin & Ho & Hpos)]; [left; exact Hz|].
    right. exists o. split; [|split; assumption].
    apply filter_In. split; [exact Hin|]. rewrite <- Ho. exact Hpos.
Qed.

(** ** The sign of the answer *)

Lemma binary_round_aux_sign (p emx : Z) (sx : bool) (mx ex : Z) (lx : location) :
  sign_is sx (binary_round_aux p emx sx mx ex lx).
Proof.
  unfold binary_round_aux.
  destruct (shr_fexp p emx mx ex lx) as [mrs' e'].
  destruct (shr_fexp p emx _ e' loc_Exact) as [mrs'' e''].
  destruct (shr_m mrs'') as [|q|q]; simpl; auto.
  destruct (e'' <=? emx - p)%Z; reflexivity.
Qed.

Lemma literal_value_sign (negative : bool) (m e : Z) :
  sign_is negative (literal_value (LitDecimal negative m e)).
Proof.
  destruct m as [|m|m]; try reflexivity.
  unfold literal_value. destruct (0 <=? e)%Z.
  - unfold binary_round. destruct (shl_align _ _ _) as [mz ez].
    apply binary_round_aux_sign.
  - unfold SFdiv. destruct (SFdiv_core_binary _ _ _ _ _ _) as [[mz ez] lz].
    rewrite xorb_false_r. apply binary_round_aux_sign.
Qed.

Lemma positive_sign_not_below_zero (x : number) :
  sign_is false x -> num_lt x (num_of_Z 0) = false.
Proof.
  unfold num_lt, SFltb. change (num_of_Z 0) with (S754_zero false).
  destruct x as [s|s| |s m e]; simpl; intros H; subst; reflexivity.
Qed.

(** X9. Whatever the rows, the selector answers with status 200 and an
    amount that is a number and is not below zero. *)
Theorem answer_never_negative (parsedAmount : number) (applicableOffers : list Row.t) :
  exists amount,
    select_highest parsedAmount applicableOffers = respond 200 (HighestDiscount amount)
    /\ isNaN amount = false
    /\ num_lt amount (num_of_Z 0) = false.
Proof.
  rewrite select_highest_response. eexists. split; [reflexivity|].
  destruct (highestDiscount_is_highest parsedAmount applicableOffers)
    as (Hnan & _ & [->|(o & _ & _ & Hpos)]).
  - vm_compute. auto.
  - destruct (num_gt_zero_positive _ Hpos) as [(m & e & ->)| ->].
    + destruct (below_1e21 m e) eqn:Hbelow.
      * rewrite (proj1 (parseFloat_toFixed2_finite false m e Hbelow)).
        split; [apply literal_value_not_nan|].
        apply positive_sign_not_below_zero, literal_value_sign.
      * unfold parseFloat_toFixed2, toFixed2. rewrite Hbelow. split; reflexivity.
    + vm_compute. auto.
Qed.

(** ** Offer ids *)

Lemma lower_unit_idempotent (c : ascii) : lower_unit (lower_unit c) = lower_unit c.
Proof.
  apply Ascii.eqb_eq. revert c.
  apply (ascii_all (fun c => Ascii.eqb (lower_unit (lower_unit c)) (lower_unit c))).
  apply (below_256_all (fun n => Ascii.eqb (lower_unit (lower_unit (ascii_of_nat n)))
                                   (lower_unit (ascii_of_nat n)))).
  vm_compute. reflexivity.
Qed.

Lemma toLowerCase_idempotent (s : string) : toLowerCase (toLowerCase s) = toLowerCase s.
Proof.
  induction s as [|c s IH]; simpl; [reflexivity|].
  rewrite lower_unit_idempotent, IH. reflexivity.
Qed.

Lemma without_whitespace_toLowerCase (s : string) :
  without_whitespace (toLowerCase s) = toLowerCase (without_whitespace s).
Proof.
  induction s as [|c s IH]; simpl; [reflexivity|].
  rewrite whitespace_lower_unit. destruct (is_whitespace c); simpl; rewrite IH; reflexivity.
Qed.

Lemma without_whitespace_clean (s : string) :
  all_units (fun c => negb (is_whitespace c)) (without_whitespace s) = true.
Proof.
  induction s as [|c s IH]; simpl; [reflexivity|].
  destruct (is_whitespace c) eqn:Hc; simpl; [exact IH|]. rewrite Hc, IH. reflexivity.
Qed.

Lemma without_whitespace_fixed (s : string) :
  all_units (fun c => negb (is_whitespace c)) s = true -> without_whitespace s = s.
Proof.
  induction s as [|c s IH]; simpl; [reflexivity|].
  intros H. apply andb_prop in H. destruct H as [Hc Hs].
  apply negb_true_iff in Hc. rewrite Hc, (IH Hs). reflexivity.
Qed.

Lemma toLowerCase_clean (s : string) :
  all_units (fun c => negb (is_whitespace c)) (toLowerCase s)
  = all_units (fun c => negb (is_whitespace c)) s.
Proof.
  induction s as [|c s IH]; simpl; [reflexivity|].
  rewrite whitespace_lower_unit, IH. reflexivity.
Qed.

Lemma length_without_whitespace (s : string) :
  (String.length (without_whitespace s) <= String.length s)%nat.
Proof.
  induction s as [|c s IH]; simpl; [lia|]. destruct (is_whitespace c); simpl; lia.
Qed.

Lemma lower_unit_not_capital (c : ascii) : is_capital (lower_unit c) = false.
Proof.
  apply negb_true_iff. revert c.
  apply (ascii_all (fun c => negb (is_capital (lower_unit c)))).
  apply (below_256_all (fun n => negb (is_capital (lower_unit (ascii_of_nat n))))).
  vm_compute. reflexivity.
Qed.

Lemma toLowerCase_no_capital (s : string) :
  all_units (fun c => negb (is_capital c)) (toLowerCase s) = true.
Proof.
  induction s as [|c s IH]; simpl; [reflexivity|].
  rewrite lower_unit_not_capital, IH. reflexivity.
Qed.

(** X2. For a description whose code units are all below 256, the id holds
    no white space and none of the capitals (A to Z, and 192 to 222 but
    215), has at most as many units as the description, and is its own
    id. *)
Theorem offer_id_is_normal (s k : string) :
  createOfferId (JStr s) = Ok k ->
  all_units (fun c => negb (is_whitespace c)) k = true
  /\ all_units (fun c => negb (is_capital c)) k = true
  /\ (String.length k <= String.length s)%nat
  /\ createOfferId (JStr k) = Ok k.
Proof.
  simpl. rewrite replace_whitespace_spec. intros [= <-].
  assert (Hclean : all_units (fun c => negb (is_whitespace c))
                     (toLowerCase (without_whitespace s)) = true).
  { rewrite toLowerCase_clean. apply without_whitespace_clean. }
  split; [exact Hclean|]. split; [apply toLowerCase_no_capital|]. split.
  - rewrite toLowerCase_length. apply length_without_whitespace.
  - rewrite replace_whitespace_spec, (without_whitespace_fixed _ Hclean),
      toLowerCase_idempotent. reflexivity.
Qed.

Lemma offer_id_is_normal_witness :
  all_units (fun c => negb (is_capital c)) "flat100offonaxiscreditcards" = true
  /\ createOfferId (JStr "flat100offonaxiscreditcards")
     = Ok "flat100offonaxiscreditcards".
Proof.
  destruct (offer_id_is_normal "Flat 100 off on AXIS credit cards"
              "flat100offonaxiscreditcards" eq_refl) as (_ & Hsmall & _ & Hfixed).
  split; assumption.
Defined.

Lemma without_whitespace_empty (s : string) :
  without_whitespace s = "" <-> is_blank s = true.
Proof.
  induction s as [|c s IH]; simpl; [tauto|].
  destruct (is_whitespace c); simpl; [exact IH|]. split; discriminate.
Qed.

Lemma toLowerCase_empty (s : string) : toLowerCase s = "" <-> s = "".
Proof. destruct s; simpl; split; congruence. Qed.

(** X3. The id is the empty text exactly when the description is blank
    (empty or white space only). *)
Theorem offer_id_empty_iff_blank (s : string) :
  createOfferId (JStr s) = Ok "" <-> is_blank s = true.
Proof.
  simpl. rewrite replace_whitespace_spec, <- without_whitespace_empty, <- toLowerCase_empty.
  split; [intros [= H]; exact H|intros ->; reflexivity].
Qed.

Lemma offer_id_empty_iff_blank_witness :
  createOfferId (JStr "  ") = Ok "" /\ is_blank "  " = true.
Proof.
  split; [|reflexivity].
  apply (proj2 (offer_id_empty_iff_blank "  ")). reflexivity.
Defined.

Lemma same_key_same_modulo (s t : string) :
  toLowerCase (without_whitespace s) = toLowerCase (without_whitespace t) ->
  same_modulo_space_and_case s t.
Proof.
  revert t. induction s as [|c s IHs]; intros t.
  - induction t as [|d t IHt]; simpl; intros H.
    + apply same_empty.
    + destruct (is_whitespace d) eqn:Hd; [|discriminate].
      apply same_space_right; auto.
  - simpl. destruct (is_whitespace c) eqn:Hc.
    + intros H. apply same_space_left; auto.
    + induction t as [|d t IHt]; simpl; intros H; [discriminate|].
      destruct (is_whitespace d) eqn:Hd.
      * apply same_space_right; auto.
      * simpl in H. injection H as Hcd Hrest.
        apply same_letter; [apply same_up_to_case_iff, Hcd|auto].
Qed.

(** X4. Two descriptions whose code units are all below 256 get the same id
    exactly when, white space apart, they have the same units up to the
    case of the capitals (a capital and the unit 32 above it count as the
    same): the ids collide in no other case. *)
Theorem same_offer_id_iff (s t : string) :
  createOfferId (JStr s) = createOfferId (JStr t)
  <-> same_modulo_space_and_case s t.
Proof.
  simpl. rewrite !replace_whitespace_spec. split.
  - intros [= H]. apply same_key_same_modulo, H.
  - intros H. rewrite (same_modulo_same_key s t H). reflexivity.
Qed.

Lemma same_offer_id_iff_witness :
  same_modulo_space_and_case "10% Off" "10 %off".
Proof.
  apply (proj1 (same_offer_id_iff "10% Off" "10 %off")). reflexivity.
Defined.

(** ** Payloads without offers, and what [POST /offer] does with any *)

(** X1. A payload whose [offers] is not an array (a falsy payload, an
    object without [offers], an [offers] of another type), or is the empty
    array, is parsed to the empty list; the parser does not throw on it. *)
Theorem parse_without_offers (payload : jsval) :
  (forall elements, get_prop payload "offers" = Ok (JArr elements) -> elements = []) ->
  parseOffersFromPayload payload = Ok [].
Proof.
  intros H. unfold parseOffersFromPayload.
  destruct (truthy payload) eqn:Ht; [|reflexivity]. cbn [negb].
  destruct (get_prop payload "offers") as [[| |b|x|s|elements|q]|e] eqn:Hp;
    cbn [bind]; try reflexivity.
  - rewrite (H elements eq_refl). reflexivity.
  - destruct payload as [| |b|x|s|l|properties]; simpl in *; try discriminate.
    destruct (own_property "offers" properties); discriminate.
Qed.

Lemma parse_without_offers_witness :
  parseOffersFromPayload JNull = Ok []
  /\ parseOffersFromPayload (JObj [("offers", JStr "none")]) = Ok []
  /\ parseOffersFromPayload (JObj [("offers", JArr [])]) = Ok [].
Proof.
  split; [|split].
  - apply (parse_without_offers JNull). intros elements H. discriminate H.
  - apply (parse_without_offers (JObj [("offers", JStr "none")])).
    intros elements H. discriminate H.
  - apply (parse_without_offers (JObj [("offers", JArr [])])).
    intros elements H. simpl in H. injection H as <-. reflexivity.
Defined.

(** X5. Whatever the body and the store, [POST /offer] answers with status
    500, issues no insert and leaves the store as it is. *)
Theorem post_offer_never_stores (req_body : jsval) (db : Store) :
  serve_offer (post_offer req_body) db
  = (respond 500
       (ErrorBody "An internal server error occurred while saving offers."), db)
  /\ forall values k, post_offer req_body <> OfferInsertIgnore values k.
Proof.
  rewrite post_offer_always_fails. split; [reflexivity|]. intros values k. discriminate.
Qed.

(** ** [GET /highest-discount]: the statuses *)

Lemma is_text_call (toUpperCase : string -> string) (v : option qsval) :
  (is_text v = true /\ exists s, v = Some (QStr s)
                                /\ call_toUpperCase toUpperCase v = Ok (toUpperCase s))
  \/ (is_text v = false /\ exists e, call_toUpperCase toUpperCase v = Throw e).
Proof.
  destruct v as [[s|l|q]|]; simpl; eauto 6.
Qed.

(** X10. [GET /highest-discount] answers with 200, 400 or 500. Past the
    checks of the parameters, it answers 500 exactly when [bankName] or
    [paymentInstrument] is not a single text or the store fails, and 200
    exactly when both are texts and the store answers. *)
Theorem highest_discount_status (toUpperCase : string -> string)
    (amountToPay bankName paymentInstrument : option qsval)
    (outcome : result (list Row.t)) :
  let r := discount_response
             (get_highest_discount toUpperCase amountToPay bankName paymentInstrument)
             outcome in
  let bad := missing amountToPay \/ missing bankName \/ missing paymentInstrument
             \/ no_numeric_prefix amountToPay in
  (status r = 500%nat
   <-> ~ bad /\ (is_text bankName = false \/ is_text paymentInstrument = false
                 \/ exists e, outcome = Throw e))
  /\ (status r = 200%nat
      <-> ~ bad /\ is_text bankName = true /\ is_text paymentInstrument = true
          /\ exists rows, outcome = Ok rows)
  /\ (status r = 200%nat \/ status r = 400%nat \/ status r = 500%nat).
Proof.
  cbv zeta. unfold get_highest_discount, highest_discount_try.
  set (bad := missing amountToPay \/ missing bankName \/ missing paymentInstrument
              \/ no_numeric_prefix amountToPay).
  assert (Hbad400 : bad ->
            forall r : response, status r = 400%nat ->
              (status r = 500%nat <-> ~ bad /\ (is_text bankName = false \/ is_text paymentInstrument = false
                 \/ exists e, outcome = Throw e))
              /\ (status r = 200%nat <-> ~ bad /\ is_text bankName = true /\ is_text paymentInstrument = true
                    /\ exists rows, outcome = Ok rows)
              /\ (status r = 200%nat \/ status r = 400%nat \/ status r = 500%nat)).
  { intros Hb r Hr. rewrite Hr. repeat split; try discriminate; try tauto. }
  destruct (q_truthy amountToPay) eqn:Ha; cbn [negb orb].
  2:{ apply Hbad400; [left; apply q_truthy_false_iff, Ha|reflexivity]. }
  destruct (q_truthy bankName) eqn:Hb; cbn [negb orb].
  2:{ apply Hbad400; [right; left; apply q_truthy_false_iff, Hb|reflexivity]. }
  destruct (q_truthy paymentInstrument) eqn:Hp; cbn [negb orb].
  2:{ apply Hbad400; [right; right; left; apply q_truthy_false_iff, Hp|reflexivity]. }
  destruct (q_truthy_true_some amountToPay Ha) as [w ->].
  destruct (isNaN (parseFloat (q_toString w))) eqn:Hnan.
  { apply Hbad400; [|reflexivity]. right. right. right. exists w.
    split; [reflexivity|]. apply parseFloat_nan_iff, Hnan. }
  assert (Hgood : ~ bad).
  { intros [H|[H|[H|(w' & [= <-] & H)]]].
    - apply q_truthy_false_iff in H. congruence.
    - apply q_truthy_false_iff in H. congruence.
    - apply q_truthy_false_iff in H. congruence.
    - apply parseFloat_nan_iff in H. congruence. }
  destruct (is_text_call toUpperCase bankName) as [(Hb1 & sb & _ & ->)|(Hb1 & e & ->)];
    cbn [bind discount_response discount_catch status].
  2:{ rewrite Hb1. repeat split; try discriminate; try tauto. intros (_ & H & _). discriminate. }
  destruct (is_text_call toUpperCase paymentInstrument) as [(Hp1 & sp & _ & ->)|(Hp1 & e & ->)];
    cbn [bind discount_response discount_catch status].
  2:{ rewrite Hp1. repeat split; try discriminate; try tauto. intros (_ & _ & H & _). discriminate. }
  rewrite Hb1, Hp1. destruct outcome as [rows|e].
  - rewrite select_highest_status. split; [|split; [|tauto]].
    + split; [discriminate|]. intros (_ & [H|[H|(e & H)]]); discriminate.
    + split; [|reflexivity]. intros _. repeat split; eauto.
  - cbn [discount_catch status]. split; [|split; [|tauto]].
    + split; [|reflexivity]. intros _. split; [exact Hgood|]. right. right. eauto.
    + split; [discriminate|]. intros (_ & _ & _ & rows & H). discriminate.
Qed.

(** X11. A request with a missing parameter gets the message about the
    required parameters, even when [amountToPay] is no number; the message
    about an invalid amount is for requests with all three parameters. *)
Theorem bad_request_message (toUpperCase : string -> string)
    (amountToPay bankName paymentInstrument : option qsval) :
  ((missing amountToPay \/ missing bankName \/ missing paymentInstrument) ->
   get_highest_discount toUpperCase amountToPay bankName paymentInstrument
   = DiscountSend (respond 400 (ErrorBody
       "Missing required query parameters: amountToPay, bankName, and paymentInstrument are required.")))
  /\ (~ (missing amountToPay \/ missing bankName \/ missing paymentInstrument) ->
      no_numeric_prefix amountToPay ->
      get_highest_discount toUpperCase amountToPay bankName paymentInstrument
      = DiscountSend (respond 400
          (ErrorBody "Invalid amountToPay. Must be a number."))).
Proof.
  unfold get_highest_discount, highest_discount_try. split.
  - intros Hmissing.
    assert (H : negb (q_truthy amountToPay) || negb (q_truthy bankName)
                || negb (q_truthy paymentInstrument) = true).
    { destruct Hmissing as [H|[H|H]]; apply q_truthy_false_iff in H; rewrite H;
        simpl; rewrite ?orb_true_r; reflexivity. }
    rewrite H. reflexivity.
  - intros Hpresent (w & -> & Hscan).
    destruct (q_truthy (Some w)) eqn:Ha;
      [|exfalso; apply Hpresent; left; apply q_truthy_false_iff, Ha].
    destruct (q_truthy bankName) eqn:Hb;
      [|exfalso; apply Hpresent; right; left; apply q_truthy_false_iff, Hb].
    destruct (q_truthy paymentInstrument) eqn:Hp;
      [|exfalso; apply Hpresent; right; right; apply q_truthy_false_iff, Hp].
    cbn [negb orb]. apply parseFloat_nan_iff in Hscan. rewrite Hscan. reflexivity.
Qed.

Lemma bad_request_message_witness :
  get_highest_discount toUpperCase_ascii (Some (QStr "abc")) None (Some (QStr "CREDIT"))
  = DiscountSend (respond 400 (ErrorBody
      "Missing required query parameters: amountToPay, bankName, and paymentInstrument are required."))
  /\ get_highest_discount toUpperCase_ascii
       (Some (QStr "abc")) (Some (QStr "AXIS")) (Some (QStr "CREDIT"))
     = DiscountSend (respond 400 (ErrorBody "Invalid amountToPay. Must be a number.")).
Proof.
  split.
  - apply (proj1 (bad_request_message toUpperCase_ascii
                    (Some (QStr "abc")) None (Some (QStr "CREDIT")))).
    right. left. left. reflexivity.
  - apply (proj2 (bad_request_message toUpperCase_ascii
                    (Some (QStr "abc")) (Some (QStr "AXIS")) (Some (QStr "CREDIT")))).
    + intros [[H|H]|[[H|H]|[H|H]]]; discriminate.
    + exists (QStr "abc"). split; reflexivity.
Defined.

Lemma highest_discount_status_witness :
  status (discount_response
            (get_highest_discount toUpperCase_ascii
               (Some (QStr "1000")) (Some (QStr "axis")) (Some (QArr [])))
            (Ok [])) = 500%nat
  /\ status (discount_response
               (get_highest_discount toUpperCase_ascii
                  (Some (QStr "1000")) (Some (QStr "axis")) (Some (QStr "credit")))
               (Ok [axis_flat_row])) = 200%nat.
Proof.
  assert (Hgood : forall p, ~ missing p ->
            ~ (missing (Some (QStr "1000")) \/ missing (Some (QStr "axis")) \/ missing p
               \/ no_numeric_prefix (Some (QStr "1000")))).
  { intros p Hp [[H|H]|[[H|H]|[H|(w & [= <-] & H)]]]; try discriminate.
    contradiction. }
  split.
  - apply (proj1 (highest_discount_status toUpperCase_ascii
                    (Some (QStr "1000")) (Some (QStr "axis")) (Some (QArr [])) (Ok []))).
    split; [apply Hgood; intros [H|H]; discriminate|]. right. left. reflexivity.
  - apply (proj1 (proj2 (highest_discount_status toUpperCase_ascii
                    (Some (QStr "1000")) (Some (QStr "axis")) (Some (QStr "credit"))
                    (Ok [axis_flat_row])))).
    split; [apply Hgood; intros [H|H]; discriminate|]. repeat split. eauto.
Defined.

(** ** A repeated [amountToPay] *)

Lemma trim_start_comma (s t : string) :
  trim_start (s ++ String "," t) = (trim_start s ++ String "," t)%string.
Proof.
  induction s as [|c s IH]; [reflexivity|].
  cbn [String.append trim_start]. destruct (is_whitespace c); [exact IH|reflexivity].
Qed.

Lemma scan_sign_comma (s t : string) :
  scan_sign (s ++ String "," t)
  = (fst (scan_sign s), (snd (scan_sign s) ++ String "," t)%string).
Proof.
  destruct s as [|c s]; [reflexivity|].
  destruct c as [[] [] [] [] [] [] [] []]; reflexivity.
Qed.

Lemma prefix_comma (p s t : string) :
  all_units (fun c => negb (Ascii.eqb c ",")) p = true ->
  String.prefix p (s ++ String "," t) = String.prefix p s.
Proof.
  revert s. induction p as [|a p IH]; intros s Hp; [destruct s; reflexivity|].
  simpl in Hp. apply andb_prop in Hp. destruct Hp as [Ha Hp].
  apply negb_true_iff, Ascii.eqb_neq in Ha.
  destruct s as [|b s]; simpl.
  - destruct (ascii_dec a ","); [contradiction|reflexivity].
  - destruct (ascii_dec a b); [apply IH, Hp|reflexivity].
Qed.

Lemma scan_digits_comma (s t : string) (acc : Z) (count : nat) :
  scan_digits acc count (s ++ String "," t)
  = (fst (scan_digits acc count s),
     (snd (scan_digits acc count s) ++ String "," t)%string).
Proof.
  revert acc count. induction s as [|c s IH]; intros acc count; [reflexivity|].
  cbn [String.append scan_digits]. destruct (is_digit c); [apply IH|reflexivity].
Qed.

Lemma scan_exponent_comma (s t : string) :
  fst (scan_exponent (s ++ String "," t)) = fst (scan_exponent s).
Proof.
  destruct s as [|c s]; [reflexivity|].
  cbn [String.append scan_exponent].
  destruct (Ascii.eqb c "e" || Ascii.eqb c "E"); [|reflexivity].
  rewrite scan_sign_comma. destruct (scan_sign s) as [negative digits]. cbn [fst snd].
  rewrite scan_digits_comma.
  destruct (scan_digits 0 0 digits) as [[v n] rest]. cbn [fst snd].
  destruct (n =? 0)%nat; reflexivity.
Qed.

Lemma scan_unsigned_comma (negative : bool) (s t : string) :
  option_map fst (scan_unsigned negative (s ++ String "," t))
  = option_map fst (scan_unsigned negative s).
Proof.
  unfold scan_unsigned. rewrite (prefix_comma "Infinity" s t eq_refl).
  destruct (String.prefix "Infinity" s); [reflexivity|].
  rewrite scan_digits_comma.
  destruct (scan_digits 0 0 s) as [[int_part int_digits] s1]. cbn [fst snd].
  destruct s1 as [|c s2].
  - cbn [String.append]. destruct (int_digits =? 0)%nat; reflexivity.
  - cbn [String.append]. destruct (Ascii.eqb_spec c ".") as [->|Hc].
    + rewrite scan_digits_comma.
      destruct (scan_digits int_part 0 s2) as [[m frac_digits] s3]. cbn [fst snd].
      destruct ((int_digits =? 0)%nat && (frac_digits =? 0)%nat); [reflexivity|].
      pose proof (scan_exponent_comma s3 t) as He.
      destruct (scan_exponent (s3 ++ String "," t)) as [e s4].
      destruct (scan_exponent s3) as [e' s4']. simpl in He. subst e'. reflexivity.
    + pose proof (scan_exponent_comma (String c s2) t) as He.
      cbn [String.append] in He.
      destruct (scan_exponent (String c (s2 ++ String "," t))) as [e s4].
      destruct (scan_exponent (String c s2)) as [e' s4'].
      simpl in He. subst e'.
      destruct c as [[] [] [] [] [] [] [] []]; try congruence; cbv beta iota;
        destruct (int_digits =? 0)%nat; reflexivity.
Qed.

Lemma parseFloat_comma (s t : string) :
  parseFloat (s ++ String "," t) = parseFloat s.
Proof.
  unfold parseFloat, scan_literal. rewrite trim_start_comma, scan_sign_comma.
  destruct (scan_sign (trim_start s)) as [negative s0]. cbn [fst snd].
  pose proof (scan_unsigned_comma negative s0 t) as H.
  destruct (scan_unsigned negative (s0 ++ String "," t)) as [[l rest]|];
    destruct (scan_unsigned negative s0) as [[l' rest']|];
    simpl in H; try discriminate; [|reflexivity].
  injection H as ->. reflexivity.
Qed.

(** X12. When [amountToPay] is repeated in the query string and its first
    value is not empty, the request is handled as if that first value were
    the only one. *)
Theorem repeated_amount_reads_first (toUpperCase : string -> string)
    (first : string) (others : list qsval) (bankName paymentInstrument : option qsval) :
  first <> "" ->
  get_highest_discount toUpperCase
    (Some (QArr (QStr first :: others))) bankName paymentInstrument
  = get_highest_discount toUpperCase (Some (QStr first)) bankName paymentInstrument.
Proof.
  intros Hfirst. unfold get_highest_discount, highest_discount_try.
  assert (Htruthy : q_truthy (Some (QStr first)) = true).
  { simpl. apply negb_true_iff, String.eqb_neq, Hfirst. }
  rewrite Htruthy. change (q_truthy (Some (QArr (QStr first :: others)))) with true.
  assert (Hparse : parseFloat (q_toString (QArr (QStr first :: others)))
                   = parseFloat (q_toString (QStr first))).
  { cbn [q_toString map]. unfold join_comma. destruct others as [|v rest].
    - reflexivity.
    - cbn [map String.concat]. apply parseFloat_comma. }
  rewrite Hparse. reflexivity.
Qed.

Lemma repeated_amount_reads_first_witness :
  get_highest_discount toUpperCase_ascii
    (Some (QArr [QStr "12"; QStr "5000"])) (Some (QStr "AXIS")) (Some (QStr "CREDIT"))
  = get_highest_discount toUpperCase_ascii
      (Some (QStr "12")) (Some (QStr "AXIS")) (Some (QStr "CREDIT")).
Proof.
  apply (repeated_amount_reads_first toUpperCase_ascii "12" [QStr "5000"]).
  discriminate.
Defined.
